(** * saxi: the plot server (src/server.ts)

    A shallow embedding of the closure created by [startServer]: the three
    closure variables [ebb], [clients] and [cancelRequested], the WebSocket
    and HTTP handlers, the two plot loops and the reconnecting generator
    [ebbs].  Asynchronous code is written in a small monad that threads the
    server state, may throw, and records every externally visible action. *)

From Stdlib Require Import List Bool Arith ZArith QArith String Lia.
Import ListNotations.
Close Scope Q_scope.

Set Implicit Arguments.

(** ** Plans (planning.ts, as far as server.ts looks into them) *)

(** Modelled from the spec: planning.ts is not part of the sources at hand.
    A plan is an ordered sequence of motions; a motion is a pen motion
    (carrying the pen positions) or a positional motion, and each exposes an
    estimated duration in seconds. *)
Record PenMotion := mkPenMotion {
  initialPos : Z;
  finalPos : Z;
  penDuration : Q
}.

Record XYMotion := mkXYMotion {
  xyDuration : Q
}.

Inductive Motion :=
| Pen (pm : PenMotion)
| XY (xm : XYMotion).

Record Plan := mkPlan {
  motions : list Motion
}.

Definition duration (m : Motion) : Q :=
  match m with
  | Pen pm => penDuration pm
  | XY xm => xyDuration xm
  end.

(** [x instanceof PenMotion] *)
Definition isPenMotion (x : Motion) : bool :=
  match x with
  | Pen _ => true
  | XY _ => false
  end.

(** [plan.motions.find((x) => x instanceof PenMotion) as PenMotion];
    [None] stands for the [undefined] that [find] returns when nothing
    matches (the cast does not change the value). *)
Definition firstPenMotion (plan : Plan) : option PenMotion :=
  match find isPenMotion (motions plan) with
  | Some (Pen pm) => Some pm
  | _ => None
  end.

(** ** Devices, sockets, messages *)

(** An [EBB] wraps a serial port; the server only reads [ebb.port.path]. *)
Record EBB := mkEBB {
  port_path : string
}.

(** The operations of an [EBB] that the server calls. *)
Inductive DevOp :=
| EnableMotors (microsteppingMode : Z)
| DisableMotors
| SetPenHeight (height rate : Z) (delay : option Z)
| ExecuteMotion (m : Motion)
| WaitUntilMotorsIdle.

(** A connected client. *)
Definition WebSocket := nat.

(** The messages the server sends ([JSON.stringify] of these objects). *)
Inductive Msg :=
| Pong
| DevMsg (path : option string)
| Progress (motionIdx : nat)
| Cancelled
| Finished.

(** What is thrown, or what a promise is rejected with. *)
Inductive Err :=
| TypeError
| SyntaxError
| DeviceError (op : DevOp)
| SendError (ws : WebSocket)
| WakeLockError
| IoError (msg : string).

(** [e.message] *)
Definition message (e : Err) : string :=
  match e with
  | TypeError => "TypeError"
  | SyntaxError => "SyntaxError"
  | DeviceError _ => "device error"
  | SendError _ => "not opened"
  | WakeLockError => "wake lock"
  | IoError msg => msg
  end.

(** The lines written to the console. *)
Inductive LogLine :=
| ReceivedPlan
| BeginningPlot
| SimulatingPlot
| PlotTook
| NoWakeLock
| MotionOf (i n : nat)
| SendFailed (e : Err)
| FoundEbb (com : string)
| LostConnection
| ErrorConnecting (msg : string)
| Retrying.

(** Everything the server does that is visible from outside, in order.
    [Bcast] marks a call of [broadcast]; the sends to the single clients
    follow it. *)
Inductive Action :=
| Bcast (msg : Msg)
| WsSend (ws : WebSocket) (msg : Msg) (delivered : bool)
| Dev (op : DevOp) (ok : bool)
| DevNoWait (op : DevOp)
| Sleep (ms : Q)
| Console (line : LogLine)
| WakeAcquire (ok : bool)
| WakeRelease
| Respond (status : nat).

(** ** The environment *)

(** The points at which a plot awaits something; while it waits, other
    handlers (here: POST /cancel) may run. *)
Inductive AwaitPoint :=
| AwEnable
| AwInitPen
| AwMotion (i : nat)
| AwPenUp
| AwIdle
| AwDisable.

Inductive Settled (A : Type) :=
| Resolved (a : A)
| Rejected (e : Err).
Arguments Rejected {A} e.

(** What the server cannot decide itself.  [penPctToPos] is
    [Device.Axidraw.penPctToPos] of planning.ts. *)
Record Env := mkEnv {
  penPctToPos : Z -> Z;
  cancelDuring : AwaitPoint -> bool;
  opFails : AwaitPoint -> bool;
  sendFails : WebSocket -> Msg -> bool;
  wakeLockFails : bool
}.

(** The closure variables of [startServer], the environment, and what the
    serial layer will answer to the connection loop: the results of the
    coming calls of [EBB.list()] and [tryOpen], and how many of the coming
    connections are lost again. *)
Record World := mkWorld {
  ebb : option EBB;
  clients : list WebSocket;
  cancelRequested : bool;
  env : Env;
  listTape : list (Settled (list string));
  openTape : list (Settled unit);
  closes : nat
}.

Definition set_ebb (d : option EBB) (w : World) : World :=
  mkWorld d (clients w) (cancelRequested w) (env w)
          (listTape w) (openTape w) (closes w).

Definition set_clients (cs : list WebSocket) (w : World) : World :=
  mkWorld (ebb w) cs (cancelRequested w) (env w)
          (listTape w) (openTape w) (closes w).

Definition set_cancelRequested (b : bool) (w : World) : World :=
  mkWorld (ebb w) (clients w) b (env w)
          (listTape w) (openTape w) (closes w).

Definition set_listTape (l : list (Settled (list string))) (w : World) : World :=
  mkWorld (ebb w) (clients w) (cancelRequested w) (env w)
          l (openTape w) (closes w).

Definition set_openTape (l : list (Settled unit)) (w : World) : World :=
  mkWorld (ebb w) (clients w) (cancelRequested w) (env w)
          (listTape w) l (closes w).

Definition set_closes (n : nat) (w : World) : World :=
  mkWorld (ebb w) (clients w) (cancelRequested w) (env w)
          (listTape w) (openTape w) n.

(** ** The monad *)

(** How a piece of code ends: it returns, it throws, it stays suspended at an
    [await] whose promise is never settled, or the model ran out of fuel. *)
Inductive Outcome (A : Type) :=
| Ok (a : A)
| Throw (e : Err)
| Pending
| OutOfFuel.
Arguments Throw {A} e.
Arguments Pending {A}.
Arguments OutOfFuel {A}.

Definition M (A : Type) : Type := World -> Outcome A * World * list Action.

Definition ret {A} (a : A) : M A := fun w => (Ok a, w, []).

Definition bind {A B} (m : M A) (k : A -> M B) : M B := fun w =>
  match m w with
  | (Ok a, w1, t1) =>
      match k a w1 with
      | (r, w2, t2) => (r, w2, t1 ++ t2)
      end
  | (Throw e, w1, t1) => (Throw e, w1, t1)
  | (Pending, w1, t1) => (Pending, w1, t1)
  | (OutOfFuel, w1, t1) => (OutOfFuel, w1, t1)
  end.

Declare Scope js_scope.
Delimit Scope js_scope with js.
Notation "x <- m ;; k" := (bind m (fun x => k))
  (at level 61, m at next level, right associativity) : js_scope.
Notation "m ;; k" := (bind m (fun _ => k))
  (at level 61, right associativity) : js_scope.
Open Scope js_scope.

Definition throw {A} (e : Err) : M A := fun w => (Throw e, w, []).
Definition outOfFuel {A} : M A := fun w => (OutOfFuel, w, []).
Definition emit (a : Action) : M unit := fun w => (Ok tt, w, [a]).
Definition get {A} (f : World -> A) : M A := fun w => (Ok (f w), w, []).
Definition modify (f : World -> World) : M unit := fun w => (Ok tt, f w, []).

(** [try { body } catch (e) { handler(e) }] *)
Definition tryCatch {A} (body : M A) (handler : Err -> M A) : M A := fun w =>
  match body w with
  | (Throw e, w1, t1) =>
      match handler e w1 with
      | (r, w2, t2) => (r, w2, t1 ++ t2)
      end
  | other => other
  end.

(** [try { body } finally { fin }]: [fin] runs when [body] returns and when
    it throws; a throw of [body] is thrown again after [fin]. *)
Definition tryFinally {A} (body : M A) (fin : M unit) : M A := fun w =>
  match body w with
  | (Ok a, w1, t1) =>
      match fin w1 with
      | (Ok _, w2, t2) => (Ok a, w2, t1 ++ t2)
      | (Throw e, w2, t2) => (Throw e, w2, t1 ++ t2)
      | (Pending, w2, t2) => (Pending, w2, t1 ++ t2)
      | (OutOfFuel, w2, t2) => (OutOfFuel, w2, t1 ++ t2)
      end
  | (Throw e, w1, t1) =>
      match fin w1 with
      | (Ok _, w2, t2) => (Throw e, w2, t1 ++ t2)
      | (Throw e', w2, t2) => (Throw e', w2, t1 ++ t2)
      | (Pending, w2, t2) => (Pending, w2, t1 ++ t2)
      | (OutOfFuel, w2, t2) => (OutOfFuel, w2, t1 ++ t2)
      end
  | other => other
  end.

Definition console (l : LogLine) : M unit := emit (Console l).

(** [sleep(ms)]: a timer always fires. *)
Definition sleep (ms : Q) : M unit := emit (Sleep ms).

(** ** The notification hub and the socket handlers *)

(** [ws.send(JSON.stringify(msg))]; it throws when the socket cannot take
    the message. *)
Definition ws_send (ws : WebSocket) (msg : Msg) : M unit := fun w =>
  if sendFails (env w) ws msg
  then (Throw (SendError ws), w, [WsSend ws msg false])
  else (Ok tt, w, [WsSend ws msg true]).

(** [array.forEach(f)] *)
Fixpoint forEach {A} (l : list A) (f : A -> M unit) : M unit :=
  match l with
  | [] => ret tt
  | x :: rest => f x ;; forEach rest f
  end.

Definition broadcast (msg : Msg) : M unit :=
  emit (Bcast msg) ;;
  cs <- get clients ;;
  forEach cs (fun ws =>
    tryCatch (ws_send ws msg) (fun e => console (SendFailed e))).

(** [ebb ? ebb.port.path : null] *)
Definition currentPath (w : World) : option string :=
  match ebb w with
  | Some d => Some (port_path d)
  | None => None
  end.

(** What [JSON.parse] makes of a text frame, as far as the handler looks at
    it: [null], or an object with its tag [c] and, when present, the
    payload [p] with [height] and [rate]. *)
Inductive Json :=
| JNull
| JObj (c : string) (p : option (Z * Z)).

(** A frame: binary, or text with the result of parsing it ([None]: the text
    is not JSON). *)
Inductive WsData :=
| Binary
| Text (parsed : option Json).

(** [ws.on("message", ...)].  The device calls are not awaited. *)
Definition onMessage (ws : WebSocket) (data : WsData) : M unit :=
  match data with
  | Binary => ret tt
  | Text parsed =>
      msg <- match parsed with
             | Some j => ret j
             | None => throw SyntaxError
             end ;;
      match msg with
      | JNull => throw TypeError
      | JObj c p =>
          if (c =? "ping")%string then ws_send ws Pong
          else if (c =? "limp")%string then
            e <- get ebb ;;
            match e with
            | Some _ => emit (DevNoWait DisableMotors)
            | None => ret tt
            end
          else if (c =? "setPenHeight")%string then
            e <- get ebb ;;
            match e with
            | Some _ =>
                match p with
                | Some (height, rate) =>
                    emit (DevNoWait (SetPenHeight height rate None))
                | None => throw TypeError
                end
            | None => ret tt
            end
          else ret tt
      end
  end.

(** [ws.on("close", ...)] *)
Definition onClose (ws : WebSocket) : M unit :=
  modify (fun w =>
    set_clients (filter (fun w' => negb (Nat.eqb w' ws)) (clients w)) w).

(** [wss.on("connection", ...)].  Registering a handler has no effect of
    its own.  The message handler is registered before the greeting is
    sent; the close handler after it, as the last statement: it is
    registered exactly when this handler returns (see [closeOf]). *)
Definition onConnection (ws : WebSocket) : M unit :=
  modify (fun w => set_clients (clients w ++ [ws]) w) ;;
  path <- get currentPath ;;
  ws_send ws (DevMsg path).

(** The [close] event of the socket [ws] whose connection handler ended
    with [greeted]: the handler of [ws.on("close", ...)] runs if the
    connection handler got as far as registering it; if the greeting threw,
    nothing listens to the event. *)
Definition closeOf (ws : WebSocket) (greeted : Outcome unit) : M unit :=
  match greeted with
  | Ok _ => onClose ws
  | _ => ret tt
  end.

(** ** Cancelling and awaiting *)

(** [app.post("/cancel", ...)] *)
Definition postCancel : M unit :=
  modify (set_cancelRequested true) ;;
  emit (Respond 200).

(** While a plot is suspended at [p], a cancel request may be served.  No
    other handler is let in here: what is stated of a plot is stated of
    plots during which no client connects or closes and the connection loop
    does not assign [ebb].  For broadcasts among such events see
    [turns]. *)
Definition whileWaiting (p : AwaitPoint) : M unit :=
  c <- get (fun w => cancelDuring (env w) p) ;;
  if c then postCancel else ret tt.

(** [await ebb.op(...)] at the await point [p].  Calling a method of a
    missing [ebb] is a TypeError. *)
Definition awaitDev (p : AwaitPoint) (op : DevOp) : M unit :=
  e <- get ebb ;;
  match e with
  | None => throw TypeError
  | Some _ =>
      f <- get (fun w => opFails (env w) p) ;;
      emit (Dev op (negb f)) ;;
      whileWaiting p ;;
      if f then throw (DeviceError op) else ret tt
  end.

(** [await new Promise((resolve) => setTimeout(resolve, ms))] *)
Definition awaitTimeout (p : AwaitPoint) (ms : Q) : M unit :=
  sleep ms ;;
  whileWaiting p.

(** ** The plot engine *)

(** [let i = 0; for (const motion of ms) { body; if (cancelRequested) { break; } i += 1; }] *)
Fixpoint motionLoop (body : nat -> Motion -> M unit)
         (ms : list Motion) (i : nat) : M unit :=
  match ms with
  | [] => ret tt
  | motion :: rest =>
      body i motion ;;
      c <- get cancelRequested ;;
      if c then ret tt
      else motionLoop body rest (S i)
  end.

Definition doPlot (plan : Plan) : M unit :=
  awaitDev AwEnable (EnableMotors 2) ;;
  pos <- match firstPenMotion plan with
         | Some pm => ret (initialPos pm)
         | None => throw TypeError
         end ;;
  awaitDev AwInitPen (SetPenHeight pos 1000 (Some 1000%Z)) ;;
  modify (set_cancelRequested false) ;;
  motionLoop (fun i motion =>
      broadcast (Progress i) ;;
      awaitDev (AwMotion i) (ExecuteMotion motion))
    (motions plan) 0 ;;
  c <- get cancelRequested ;;
  (if c then
     up <- get (fun w => penPctToPos (env w) 0) ;;
     awaitDev AwPenUp (SetPenHeight up 1000 None) ;;
     broadcast Cancelled ;;
     modify (set_cancelRequested false)
   else
     broadcast Finished) ;;
  awaitDev AwIdle WaitUntilMotorsIdle ;;
  awaitDev AwDisable DisableMotors.

Definition simulatePlot (plan : Plan) : M unit :=
  modify (set_cancelRequested false) ;;
  motionLoop (fun i motion =>
      console (MotionOf (i + 1) (List.length (motions plan))) ;;
      broadcast (Progress i) ;;
      awaitTimeout (AwMotion i) (duration motion * inject_Z 1000)%Q)
    (motions plan) 0 ;;
  c <- get cancelRequested ;;
  if c then
    broadcast Cancelled ;;
    modify (set_cancelRequested false)
  else
    broadcast Finished.

(** [new WakeLock("saxi plotting")] inside its [try]/[catch]; the result
    tells whether [wakeLock] holds a lock afterwards. *)
Definition acquireWakeLock : M bool :=
  tryCatch
    (f <- get (fun w => wakeLockFails (env w)) ;;
     emit (WakeAcquire (negb f)) ;;
     if f then throw WakeLockError else ret true)
    (fun _ => console NoWakeLock ;; ret false).

(** [ebb != null ? doPlot(plan) : simulatePlot(plan)] *)
Definition plotOrSimulate (plan : Plan) : M unit :=
  e <- get ebb ;;
  match e with
  | Some _ => doPlot plan
  | None => simulatePlot plan
  end.

(** [app.post("/plot", ...)]; [body] is what [Plan.deserialize(req.body)]
    does: it returns a plan, or it throws, and what it throws leaves the
    handler. *)
Definition postPlot (body : Settled Plan) : M unit :=
  plan <- match body with
          | Resolved plan => ret plan
          | Rejected e => throw e
          end ;;
  console ReceivedPlan ;;
  e <- get ebb ;;
  console (match e with Some _ => BeginningPlot | None => SimulatingPlot end) ;;
  emit (Respond 200) ;;
  wakeLock <- acquireWakeLock ;;
  tryFinally
    (plotOrSimulate plan ;;
     console PlotTook)
    (if wakeLock : bool then emit WakeRelease else ret tt).

(** ** The connection supervisor *)

(** [await EBB.list()]: the next answer of the serial layer, if any. *)
Definition awaitList : M (list string) := fun w =>
  match listTape w with
  | [] => (Pending, w, [])
  | Resolved l :: tape => (Ok l, set_listTape tape w, [])
  | Rejected e :: tape => (Throw e, set_listTape tape w, [])
  end.

(** [tryOpen(path)]: the port opens, or it reports an error. *)
Definition tryOpen (path : string) : M string := fun w =>
  match openTape w with
  | [] => (Pending, w, [])
  | Resolved _ :: tape => (Ok path, set_openTape tape w, [])
  | Rejected e :: tape => (Throw e, set_openTape tape w, [])
  end.

(** [await closed]: the open port closes or errors, or it never does. *)
Definition awaitClosed : M unit := fun w =>
  match closes w with
  | O => (Pending, w, [])
  | S n => (Ok tt, set_closes n w, [])
  end.

Fixpoint waitForEbb (fuel : nat) : M string :=
  match fuel with
  | O => outOfFuel
  | S fuel' =>
      ebbs <- awaitList ;;
      match ebbs with
      | com :: _ => ret com
      | [] => sleep (inject_Z 5000) ;; waitForEbb fuel'
      end
  end.

(** [path || ...]: the empty string is falsy. *)
Definition truthy (path : option string) : option string :=
  match path with
  | Some EmptyString => None
  | other => other
  end.

(** The generator [ebbs(path)], with the body of its consumer passed as
    [yield]: every [yield v] hands [v] to the loop that iterates over the
    generator, which runs its body and asks for the next value.  First the
    [try] block of one round of its loop, then its [catch] block. *)
Definition ebbsTry (path : option string) (yield : option EBB -> M unit)
           (fuel : nat) : M unit :=
  com <- match truthy path with
         | Some p => ret p
         | None => waitForEbb fuel
         end ;;
  console (FoundEbb com) ;;
  port <- tryOpen com ;;
  yield (Some (mkEBB port)) ;;
  awaitClosed ;;
  yield None ;;
  console LostConnection.

Definition ebbsCatch (e : Err) : M unit :=
  console (ErrorConnecting (message e)) ;;
  console Retrying ;;
  sleep (inject_Z 5000).

Fixpoint ebbs (path : option string) (yield : option EBB -> M unit)
         (fuel : nat) : M unit :=
  match fuel with
  | O => outOfFuel
  | S fuel' =>
      tryCatch (ebbsTry path yield fuel) ebbsCatch ;;
      ebbs path yield fuel'
  end.

(** The body of the loop of [connect()]:
    [ebb = d; broadcast({c: "dev", p: {path: ebb ? ebb.port.path : null}})] *)
Definition connectBody (d : option EBB) : M unit :=
  modify (set_ebb d) ;;
  path <- get currentPath ;;
  broadcast (DevMsg path).

(** [connect()]: [for await (const d of ebbs()) { ... }] *)
Definition connect (fuel : nat) : M unit :=
  ebbs None connectBody fuel.

(** [connectEBB(path)]: [new EBB(new SerialPort(...))] on the given path, or
    on the first port listed, or [null] when nothing is listed. *)
Definition connectEBB (path : option string) : M (option EBB) :=
  match truthy path with
  | Some p => ret (Some (mkEBB p))
  | None =>
      ebbs <- awaitList ;;
      match ebbs with
      | com :: _ => ret (Some (mkEBB com))
      | [] => ret None
      end
  end.

(** ** Reading a trace *)

(** The events handed to [broadcast], in order. *)
Definition bcasts (t : list Action) : list Msg :=
  flat_map (fun a => match a with Bcast msg => [msg] | _ => [] end) t.

(** The device operations a plot awaited, in order, each with its result
    ([true]: it succeeded). *)
Definition devCalls (t : list Action) : list (DevOp * bool) :=
  flat_map (fun a => match a with Dev op ok => [(op, ok)] | _ => [] end) t.

(** The same without the results. *)
Definition devOps (t : list Action) : list DevOp := map fst (devCalls t).

(** The motions handed to [executeMotion], in order. *)
Definition executed (t : list Action) : list Motion :=
  flat_map (fun a => match a with Dev (ExecuteMotion m) _ => [m] | _ => [] end) t.

(** The timers a simulation waited for, in order. *)
Definition sleeps (t : list Action) : list Q :=
  flat_map (fun a => match a with Sleep ms => [ms] | _ => [] end) t.

(** What one client was sent successfully, in order. *)
Definition deliveredTo (ws : WebSocket) (t : list Action) : list Msg :=
  flat_map (fun a => match a with
                     | WsSend ws' msg true => if Nat.eqb ws' ws then [msg] else []
                     | _ => []
                     end) t.

(** The two events that end the report of a plot. *)
Definition isTerminal (msg : Msg) : bool :=
  match msg with
  | Finished | Cancelled => true
  | _ => false
  end.

(** Whether a terminal event was broadcast. *)
Definition reportsTerminal (t : list Action) : bool :=
  existsb isTerminal (bcasts t).

(** Progress events interleaved with the execution of motions: the order in
    which a plot announces and runs its motions. *)
Inductive PlotStep :=
| Announce (i : nat)
| Run (m : Motion)
| Wait (ms : Q).

Definition plotSteps (t : list Action) : list PlotStep :=
  flat_map (fun a => match a with
                     | Bcast (Progress i) => [Announce i]
                     | Dev (ExecuteMotion m) _ => [Run m]
                     | Sleep ms => [Wait ms]
                     | _ => []
                     end) t.

(** Whether the motors are energized after the device operations of [t]:
    the last successful enable or disable decides. *)
Fixpoint motorsOn (on : bool) (t : list Action) : bool :=
  match t with
  | [] => on
  | Dev (EnableMotors _) true :: rest => motorsOn true rest
  | Dev DisableMotors true :: rest => motorsOn false rest
  | _ :: rest => motorsOn on rest
  end.

(** What [broadcast(msg)] does for the clients [cs]: a send to each, and a
    warning after each send that threw. *)
Definition deliveries (w : World) (msg : Msg) (cs : list WebSocket) : list Action :=
  flat_map (fun ws =>
    if sendFails (env w) ws msg
    then [WsSend ws msg false; Console (SendFailed (SendError ws))]
    else [WsSend ws msg true]) cs.

(** ** What the runs look like *)

(** The trace of serving a cancel request while suspended at [p]. *)
Definition waitingTrace (w : World) (p : AwaitPoint) : list Action :=
  if cancelDuring (env w) p then [Respond 200] else [].

(** The trace of [await ebb.op(...)] at [p]. *)
Definition devTrace (w : World) (p : AwaitPoint) (op : DevOp) : list Action :=
  Dev op (negb (opFails (env w) p)) :: waitingTrace w p.

(** The trace of [broadcast(msg)]. *)
Definition bcastTrace (w : World) (msg : Msg) : list Action :=
  Bcast msg :: deliveries w msg (clients w).

(** The trace of one iteration of the loop of [doPlot]. *)
Definition doIter (w : World) (i : nat) (m : Motion) : list Action :=
  bcastTrace w (Progress i) ++ devTrace w (AwMotion i) (ExecuteMotion m).

(** The trace of one iteration of the loop of [simulatePlot] over [n]
    motions. *)
Definition simIter (w : World) (n i : nat) (m : Motion) : list Action :=
  Console (MotionOf (i + 1) n) :: bcastTrace w (Progress i)
    ++ Sleep (duration m * inject_Z 1000)%Q :: waitingTrace w (AwMotion i).

(** The traces of the first [k] iterations over [ms], counting from [i]. *)
Fixpoint iterTraces (tr : nat -> Motion -> list Action)
         (ms : list Motion) (i k : nat) {struct k} : list Action :=
  match k, ms with
  | S k', m :: rest => tr i m ++ iterTraces tr rest (S i) k'
  | _, _ => []
  end.

(** How a motion loop ends when a cancel request arrives during motion [j]
    iff [c j] and the motion fails iff [f j]: the number of iterations
    begun, the outcome, and [cancelRequested] afterwards. *)
Fixpoint loopSummary (c f : nat -> bool) (ms : list Motion) (i : nat)
  : nat * Outcome unit * bool :=
  match ms with
  | [] => (0, Ok tt, false)
  | m :: rest =>
      if f i then (1, Throw (DeviceError (ExecuteMotion m)), c i)
      else if c i then (1, Ok tt, true)
      else match loopSummary c f rest (S i) with
           | (k, r, b) => (S k, r, b)
           end
  end.

(** Whether a cancel request arrives while motion [i] runs. *)
Definition cancelAt (w : World) (i : nat) : bool :=
  cancelDuring (env w) (AwMotion i).

(** Whether [executeMotion] fails for motion [i]. *)
Definition failAt (w : World) (i : nat) : bool :=
  opFails (env w) (AwMotion i).

(** A timer does not fail. *)
Definition never (i : nat) : bool := false.

(** The steps of a plot that announces and runs the first [k] of [ms]. *)
Fixpoint stepsOf (step : Motion -> PlotStep)
         (ms : list Motion) (i k : nat) {struct k} : list PlotStep :=
  match k, ms with
  | S k', m :: rest => Announce i :: step m :: stepsOf step rest (S i) k'
  | _, _ => []
  end.

(** The first two device operations of [doPlot]. *)
Definition prologue (w : World) (pm : PenMotion) : list Action :=
  devTrace w AwEnable (EnableMotors 2)
    ++ devTrace w AwInitPen (SetPenHeight (initialPos pm) 1000 (Some 1000%Z)).

(** The last two device operations of [doPlot], entered with
    [cancelRequested = b]. *)
Inductive CleanupRun (w : World) (b : bool)
  : Outcome unit -> bool -> list Action -> Prop :=
| IdleFails :
    opFails (env w) AwIdle = true ->
    CleanupRun w b (Throw (DeviceError WaitUntilMotorsIdle))
      (b || cancelDuring (env w) AwIdle)
      (devTrace w AwIdle WaitUntilMotorsIdle)
| DisableFails :
    opFails (env w) AwIdle = false ->
    opFails (env w) AwDisable = true ->
    CleanupRun w b (Throw (DeviceError DisableMotors))
      (b || cancelDuring (env w) AwIdle || cancelDuring (env w) AwDisable)
      (devTrace w AwIdle WaitUntilMotorsIdle ++ devTrace w AwDisable DisableMotors)
| CleanedUp :
    opFails (env w) AwIdle = false ->
    opFails (env w) AwDisable = false ->
    CleanupRun w b (Ok tt)
      (b || cancelDuring (env w) AwIdle || cancelDuring (env w) AwDisable)
      (devTrace w AwIdle WaitUntilMotorsIdle ++ devTrace w AwDisable DisableMotors).

(** The runs of [doPlot plan] from [w]: outcome, [cancelRequested]
    afterwards, and trace. *)
Inductive DoPlotRun (plan : Plan) (w : World)
  : Outcome unit -> bool -> list Action -> Prop :=
| EnableFails :
    opFails (env w) AwEnable = true ->
    DoPlotRun plan w (Throw (DeviceError (EnableMotors 2)))
      (cancelRequested w || cancelDuring (env w) AwEnable)
      (devTrace w AwEnable (EnableMotors 2))
| NoPenMotion :
    opFails (env w) AwEnable = false ->
    firstPenMotion plan = None ->
    DoPlotRun plan w (Throw TypeError)
      (cancelRequested w || cancelDuring (env w) AwEnable)
      (devTrace w AwEnable (EnableMotors 2))
| InitPenFails pm :
    opFails (env w) AwEnable = false ->
    firstPenMotion plan = Some pm ->
    opFails (env w) AwInitPen = true ->
    DoPlotRun plan w
      (Throw (DeviceError (SetPenHeight (initialPos pm) 1000 (Some 1000%Z))))
      (cancelRequested w || cancelDuring (env w) AwEnable
         || cancelDuring (env w) AwInitPen)
      (prologue w pm)
| MotionFails pm k e b :
    opFails (env w) AwEnable = false ->
    firstPenMotion plan = Some pm ->
    opFails (env w) AwInitPen = false ->
    loopSummary (cancelAt w) (failAt w) (motions plan) 0 = (k, Throw e, b) ->
    DoPlotRun plan w (Throw e) b
      (prologue w pm ++ iterTraces (doIter w) (motions plan) 0 k)
| PenUpFails pm k :
    opFails (env w) AwEnable = false ->
    firstPenMotion plan = Some pm ->
    opFails (env w) AwInitPen = false ->
    loopSummary (cancelAt w) (failAt w) (motions plan) 0 = (k, Ok tt, true) ->
    opFails (env w) AwPenUp = true ->
    DoPlotRun plan w
      (Throw (DeviceError (SetPenHeight (penPctToPos (env w) 0) 1000 None))) true
      (prologue w pm ++ iterTraces (doIter w) (motions plan) 0 k
         ++ devTrace w AwPenUp (SetPenHeight (penPctToPos (env w) 0) 1000 None))
| CancelledRun pm k r b t :
    opFails (env w) AwEnable = false ->
    firstPenMotion plan = Some pm ->
    opFails (env w) AwInitPen = false ->
    loopSummary (cancelAt w) (failAt w) (motions plan) 0 = (k, Ok tt, true) ->
    opFails (env w) AwPenUp = false ->
    CleanupRun w false r b t ->
    DoPlotRun plan w r b
      (prologue w pm ++ iterTraces (doIter w) (motions plan) 0 k
         ++ devTrace w AwPenUp (SetPenHeight (penPctToPos (env w) 0) 1000 None)
         ++ bcastTrace w Cancelled ++ t)
| FinishedRun pm k r b t :
    opFails (env w) AwEnable = false ->
    firstPenMotion plan = Some pm ->
    opFails (env w) AwInitPen = false ->
    loopSummary (cancelAt w) (failAt w) (motions plan) 0 = (k, Ok tt, false) ->
    CleanupRun w false r b t ->
    DoPlotRun plan w r b
      (prologue w pm ++ iterTraces (doIter w) (motions plan) 0 k
         ++ bcastTrace w Finished ++ t).

(** ** Statements about plots *)

(** What an observer sees of one plot over [plan], ended with outcome [r]
    and trace [t]: progress for the motions 0 .. k-1, each announced right
    before the motion is run ([step] tells how a motion is run), then at most
    one terminal event; one, when the plot returns; and all the motions
    followed by [Finished], when it returns without a cancel request having
    arrived during a motion. *)
Definition PlotReport (plan : Plan) (w : World) (step : Motion -> PlotStep)
           (r : Outcome unit) (t : list Action) : Prop :=
  exists k term,
    k <= List.length (motions plan)
    /\ bcasts t = map Progress (seq 0 k) ++ term
    /\ plotSteps t = stepsOf step (motions plan) 0 k
    /\ (term = []
        \/ (term = [Finished] /\ k = List.length (motions plan))
        \/ (term = [Cancelled] /\ 0 < k))
    /\ (r = Ok tt -> term <> [])
    /\ ((forall i, i < List.length (motions plan) -> cancelAt w i = false) ->
        r = Ok tt ->
        k = List.length (motions plan) /\ term = [Finished]).

(** How a simulation runs a motion. *)
Definition simStep (m : Motion) : PlotStep :=
  Wait (duration m * inject_Z 1000)%Q.

(** ** Concrete plans and worlds *)

(** A pen motion and a positional motion. *)
Definition penDown : Motion := Pen (mkPenMotion 27831 17700 (1 # 5)).
Definition stroke : Motion := XY (mkXYMotion (3 # 2)).


Definition planPenStroke : Plan := mkPlan [penDown; stroke].
Definition planStrokeOnly : Plan := mkPlan [stroke].

(** Nothing fails and nobody cancels. *)
Definition calm : Env :=
  mkEnv (fun _ => 27831%Z) (fun _ => false) (fun _ => false)
        (fun _ _ => false) false.

(** A cancel request arrives while motion 0 runs. *)
Definition cancelFirst : Env :=
  mkEnv (fun _ => 27831%Z)
        (fun p => match p with AwMotion 0 => true | _ => false end)
        (fun _ => false) (fun _ _ => false) false.


(** The device fails while motion 0 runs. *)
Definition failFirst : Env :=
  mkEnv (fun _ => 27831%Z) (fun _ => false)
        (fun p => match p with AwMotion 0 => true | _ => false end)
        (fun _ _ => false) false.

(** The device fails while it waits for the motors to be idle. *)
Definition idleFails : Env :=
  mkEnv (fun _ => 27831%Z) (fun _ => false)
        (fun p => match p with AwIdle => true | _ => false end)
        (fun _ _ => false) false.


(** Two clients, a device at /dev/ttyACM0. *)
Definition bench (e : Env) : World :=
  mkWorld (Some (mkEBB "/dev/ttyACM0")) [1; 2] false e [] [] 0.

(** Two clients, no device. *)
Definition desk (e : Env) : World :=
  mkWorld None [1; 2] false e [] [] 0.

(** ** Statements about the connection loop *)

(** The answers of the serial layer that the connection loop still has to
    consume. *)
Definition pendingAnswers (w : World) : nat :=
  List.length (listTape w) + List.length (openTape w) + closes w.

(** One failed attempt to connect: no device is listed, listing fails, or a
    device [com] is listed (first, before [others]) and opening it fails. *)
Inductive Failure :=
| NoCandidate
| ListFails (e : Err)
| OpenFails (com : string) (others : list string) (e : Err).

(** What [EBB.list()] answers in a failed attempt. *)
Definition listAnswer (f : Failure) : Settled (list string) :=
  match f with
  | NoCandidate => Resolved []
  | ListFails e => Rejected e
  | OpenFails com others _ => Resolved (com :: others)
  end.

(** What [tryOpen] answers in a failed attempt, if it is reached. *)
Definition openAnswer (f : Failure) : list (Settled unit) :=
  match f with
  | OpenFails _ _ e => [Rejected e]
  | _ => []
  end.

(** What the connection loop does about one failed attempt. *)
Definition failureTrace (f : Failure) : list Action :=
  match f with
  | NoCandidate => [Sleep (inject_Z 5000)]
  | ListFails e =>
      [Console (ErrorConnecting (message e)); Console Retrying;
       Sleep (inject_Z 5000)]
  | OpenFails com _ e =>
      [Console (FoundEbb com); Console (ErrorConnecting (message e));
       Console Retrying; Sleep (inject_Z 5000)]
  end.

(** The server state of [w] in front of a serial layer that lets the
    attempts [fs] fail, then lists [com] (before [others]) and opens it, and
    loses [n] connections afterwards (0 or 1 here). *)
Definition failingThenOpening (fs : list Failure) (com : string)
           (others : list string) (n : nat) (w : World) : World :=
  mkWorld (ebb w) (clients w) (cancelRequested w) (env w)
          (map listAnswer fs ++ [Resolved (com :: others)])
          (flat_map openAnswer fs ++ [Resolved tt])
          n.

(** The server state once the serial layer has no more answers. *)
Definition settled (d : option EBB) (w : World) : World :=
  mkWorld d (clients w) (cancelRequested w) (env w) [] [] 0.

(** [let (r, w, t) := run in (r, w, t0 ++ t)] *)
Definition after {A} (t0 : list Action) (run : Outcome A * World * list Action)
  : Outcome A * World * list Action :=
  match run with
  | (r, w, t) => (r, w, t0 ++ t)
  end.

(** The [try] block of [ebbs] from the point where the port name [com] is
    known: [ebbsTry path yield fuel] is the choice of [com] followed by
    [opening yield com]. *)
Definition opening (yield : option EBB -> M unit) (com : string) : M unit :=
  console (FoundEbb com) ;;
  port <- tryOpen com ;;
  yield (Some (mkEBB port)) ;;
  awaitClosed ;;
  yield None ;;
  console LostConnection.

(** One round of the loop of [ebbs()] as [connect()] runs it, with [f1] the
    fuel of its wait for a device and [f2] the fuel of the rounds after it:
    [ebbs None connectBody (S f)] is [round (S f) f]. *)
Definition round (f1 f2 : nat) : M unit :=
  tryCatch (ebbsTry None connectBody f1) ebbsCatch ;;
  ebbs None connectBody f2.

(** ** Further statements *)

(** What [broadcast(msg)] delivers to [ws]: nothing if its send throws, else
    one copy for each time [ws] is registered. *)
Definition copies (w : World) (ws : WebSocket) (msg : Msg) : list Msg :=
  if sendFails (env w) ws msg then []
  else repeat msg (count_occ Nat.eq_dec (clients w) ws).

(** What the broadcasts of [events], in this order, deliver to [ws]. *)
Definition received (w : World) (ws : WebSocket) (events : list Msg) : list Msg :=
  flat_map (copies w ws) events.

(** Device calls that all succeeded. *)
Definition succeeded (ops : list DevOp) : list (DevOp * bool) :=
  map (fun op => (op, true)) ops.

(** The [dev] broadcasts of complete connections: found at [com], then
    lost. *)
Definition cycles (coms : list string) : list Msg :=
  flat_map (fun com => [DevMsg (Some com); DevMsg None]) coms.

(** Client 1 cannot be reached. *)
Definition deafFirst : Env :=
  mkEnv (fun _ => 27831%Z) (fun _ => false) (fun _ => false)
        (fun ws _ => Nat.eqb ws 1) false.

(** Client 3 cannot be reached. *)
Definition deafThird : Env :=
  mkEnv (fun _ => 27831%Z) (fun _ => false) (fun _ => false)
        (fun ws _ => Nat.eqb ws 3) false.

(** The device calls of the cleanup, read off its outcome. *)
Definition cleanupCallsOf (r : Outcome unit) : list (DevOp * bool) :=
  match r with
  | Ok _ => [(WaitUntilMotorsIdle, true); (DisableMotors, true)]
  | Throw (DeviceError DisableMotors) =>
      [(WaitUntilMotorsIdle, true); (DisableMotors, false)]
  | _ => [(WaitUntilMotorsIdle, false)]
  end.

(** Cancel requests arrive while the motors are enabled and while the pen
    is first set, and at no other time. *)
Definition cancelEarly : Env :=
  mkEnv (fun _ => 27831%Z)
        (fun p => match p with AwEnable | AwInitPen => true | _ => false end)
        (fun _ => false) (fun _ _ => false) false.

(** What the connection loop does about a failed open of the configured
    port [p]. *)
Definition openFailureTrace (p : string) (e : Err) : list Action :=
  [Console (FoundEbb p); Console (ErrorConnecting (message e));
   Console Retrying; Sleep (inject_Z 5000)].

(** The [dev] broadcasts of a connection loop that found the server with
    device [d0] and leaves it with device [d]: none yet and [d] is [d0];
    or complete connections only and no device; or complete connections,
    then the announcement of the device that is connected now. *)
Inductive DevHistory (d0 : option EBB) : option EBB -> list Msg -> Prop :=
| NothingYet : DevHistory d0 d0 []
| AllLost com coms : DevHistory d0 None (cycles (com :: coms))
| Connected coms com :
    DevHistory d0 (Some (mkEBB com)) (cycles coms ++ [DevMsg (Some com)]).

(** ** Handlers taking turns *)

(** What can happen to the notification hub between two steps of a plot or
    of the connection loop: some code calls [broadcast(msg)]; a socket
    connects; the close handler of a socket runs; a socket sends a frame; a
    cancel request is served; the connection loop assigns [ebb]. *)
Inductive HubEvent :=
| Says (msg : Msg)
| Joins (ws : WebSocket)
| Leaves (ws : WebSocket)
| Hears (ws : WebSocket) (data : WsData)
| Cancels
| Device (d : option EBB).

Definition serve (ev : HubEvent) : M unit :=
  match ev with
  | Says msg => broadcast msg
  | Joins ws => onConnection ws
  | Leaves ws => onClose ws
  | Hears ws data => onMessage ws data
  | Cancels => postCancel
  | Device d => modify (set_ebb d)
  end.

(** The handlers run one after the other, each in a turn of its own: the
    state one leaves is the state the next finds, and what one throws does
    not reach the next.  Which events occur, and in which order, is not
    decided here: the lists contain at least the sequences the server can
    see (a close handler, for one, runs only for a socket that has one, and
    no turn follows one that ends the process). *)
Fixpoint turns (evs : list HubEvent) (w : World) : World * list Action :=
  match evs with
  | [] => (w, [])
  | ev :: rest =>
      match serve ev w with
      | (_, w1, t1) =>
          match turns rest w1 with
          | (w2, t2) => (w2, t1 ++ t2)
          end
      end
  end.

(** Whether an event is the socket [ws] itself connecting, closing or
    sending a frame. *)
Definition concerns (ws : WebSocket) (ev : HubEvent) : bool :=
  match ev with
  | Joins ws' | Leaves ws' | Hears ws' _ => Nat.eqb ws' ws
  | _ => false
  end.

(** The events of [evs] are about other sockets than [ws]. *)
Definition foreign (ws : WebSocket) (evs : list HubEvent) : bool :=
  forallb (fun ev => negb (concerns ws ev)) evs.

(** * Proofs *)

(** ** The model at work *)

Example doPlot_on_the_bench :
  doPlot planPenStroke (bench calm)
  = (Ok tt, bench calm,
     [Dev (EnableMotors 2) true;
      Dev (SetPenHeight 27831 1000 (Some 1000%Z)) true;
      Bcast (Progress 0); WsSend 1 (Progress 0) true; WsSend 2 (Progress 0) true;
      Dev (ExecuteMotion penDown) true;
      Bcast (Progress 1); WsSend 1 (Progress 1) true; WsSend 2 (Progress 1) true;
      Dev (ExecuteMotion stroke) true;
      Bcast Finished; WsSend 1 Finished true; WsSend 2 Finished true;
      Dev WaitUntilMotorsIdle true;
      Dev DisableMotors true]).
Proof. reflexivity. Qed.

Example simulatePlot_cancelled_at_the_desk :
  simulatePlot planPenStroke (desk cancelFirst)
  = (Ok tt, desk cancelFirst,
     [Console (MotionOf 1 2);
      Bcast (Progress 0); WsSend 1 (Progress 0) true; WsSend 2 (Progress 0) true;
      Sleep ((1 # 5) * inject_Z 1000)%Q;
      Respond 200;
      Bcast Cancelled; WsSend 1 Cancelled true; WsSend 2 Cancelled true]).
Proof. reflexivity. Qed.

Example doPlot_without_pen_motion :
  doPlot planStrokeOnly (bench calm)
  = (Throw TypeError, bench calm, [Dev (EnableMotors 2) true]).
Proof. reflexivity. Qed.

Example postPlot_releases_after_a_failure :
  postPlot (Resolved planPenStroke) (bench failFirst)
  = (Throw (DeviceError (ExecuteMotion penDown)), bench failFirst,
     [Console ReceivedPlan; Console BeginningPlot; Respond 200;
      WakeAcquire true;
      Dev (EnableMotors 2) true;
      Dev (SetPenHeight 27831 1000 (Some 1000%Z)) true;
      Bcast (Progress 0); WsSend 1 (Progress 0) true; WsSend 2 (Progress 0) true;
      Dev (ExecuteMotion penDown) false;
      WakeRelease]).
Proof. reflexivity. Qed.

Example onConnection_at_the_bench :
  onConnection 3 (bench calm)
  = (Ok tt, set_clients [1; 2; 3] (bench calm),
     [WsSend 3 (DevMsg (Some "/dev/ttyACM0"%string)) true]).
Proof. reflexivity. Qed.

Example onClose_forgets_the_client :
  clients (snd (fst (onClose 1 (bench calm)))) = [2].
Proof. reflexivity. Qed.

(** ** Running the monad *)

Lemma bind_Ok A B (m : M A) (k : A -> M B) w a w1 t1 :
  m w = (Ok a, w1, t1) ->
  bind m k w = (let '(r, w2, t2) := k a w1 in (r, w2, t1 ++ t2)).
Proof. intros H. unfold bind. rewrite H. destruct (k a w1) as [[r w2] t2]. reflexivity. Qed.

(** ** The notification hub *)

Lemma forEach_send w msg cs :
  forEach cs (fun ws =>
    tryCatch (ws_send ws msg) (fun e => console (SendFailed e))) w
  = (Ok tt, w, deliveries w msg cs).
Proof.
  induction cs as [|ws cs IH]; [reflexivity|].
  cbn [forEach]. unfold bind at 1, tryCatch at 1, ws_send at 1.
  unfold deliveries. cbn [flat_map].
  destruct (sendFails (env w) ws msg); cbn; rewrite IH; reflexivity.
Qed.

Lemma broadcast_run w msg :
  broadcast msg w = (Ok tt, w, Bcast msg :: deliveries w msg (clients w)).
Proof.
  unfold broadcast.
  cbn [bind emit get]. unfold bind, emit, get. rewrite forEach_send. reflexivity.
Qed.

Lemma deliveries_sent w msg cs ws :
  In ws cs -> sendFails (env w) ws msg = false ->
  In (WsSend ws msg true) (deliveries w msg cs).
Proof.
  intros Hin Hok. unfold deliveries. apply in_flat_map.
  exists ws. split; [assumption|]. rewrite Hok. left. reflexivity.
Qed.

Lemma deliveries_warned w msg cs ws :
  In ws cs -> sendFails (env w) ws msg = true ->
  In (Console (SendFailed (SendError ws))) (deliveries w msg cs).
Proof.
  intros Hin Hbad. unfold deliveries. apply in_flat_map.
  exists ws. split; [assumption|]. rewrite Hbad. right. left. reflexivity.
Qed.

(** ** Awaiting *)

Lemma set_cancelRequested_same w :
  set_cancelRequested (cancelRequested w) w = w.
Proof. destruct w; reflexivity. Qed.

Lemma whileWaiting_run w p :
  whileWaiting p w
  = (Ok tt, set_cancelRequested (cancelRequested w || cancelDuring (env w) p) w,
     waitingTrace w p).
Proof.
  unfold whileWaiting, waitingTrace, bind, get, postCancel, bind, modify, emit, ret.
  destruct (cancelDuring (env w) p).
  - rewrite orb_true_r. reflexivity.
  - rewrite orb_false_r, set_cancelRequested_same. reflexivity.
Qed.

Lemma awaitDev_run w d p op :
  ebb w = Some d ->
  awaitDev p op w
  = (if opFails (env w) p then Throw (DeviceError op) else Ok tt,
     set_cancelRequested (cancelRequested w || cancelDuring (env w) p) w,
     devTrace w p op).
Proof.
  intros He. unfold awaitDev.
  unfold bind at 1, get at 1. rewrite He.
  unfold bind at 1, get at 1.
  unfold bind at 1, emit at 1.
  erewrite bind_Ok by apply whileWaiting_run.
  unfold devTrace.
  destruct (opFails (env w) p); cbn; rewrite app_nil_r; reflexivity.
Qed.

Lemma awaitDev_no_ebb w p op :
  ebb w = None -> awaitDev p op w = (Throw TypeError, w, []).
Proof.
  intros He. unfold awaitDev, bind, get. rewrite He. reflexivity.
Qed.

Lemma awaitTimeout_run w p ms :
  awaitTimeout p ms w
  = (Ok tt, set_cancelRequested (cancelRequested w || cancelDuring (env w) p) w,
     Sleep ms :: waitingTrace w p).
Proof.
  unfold awaitTimeout, sleep. unfold bind at 1, emit at 1.
  rewrite whileWaiting_run. reflexivity.
Qed.

(** ** The motion loop *)

Section MotionLoop.

Variable body : nat -> Motion -> M unit.
Variables c f : nat -> bool.
Variable tr : nat -> Motion -> list Action.
Variable w0 : World.

Hypothesis body_run : forall i m b,
  body i m (set_cancelRequested b w0)
  = (if f i then Throw (DeviceError (ExecuteMotion m)) else Ok tt,
     set_cancelRequested (b || c i) w0,
     tr i m).

Lemma motionLoop_run ms : forall i,
  motionLoop body ms i (set_cancelRequested false w0)
  = (let '(k, r, b) := loopSummary c f ms i in
     (r, set_cancelRequested b w0, iterTraces tr ms i k)).
Proof.
  induction ms as [|m rest IH]; intros i; [reflexivity|].
  cbn [motionLoop loopSummary].
  unfold bind at 1. rewrite body_run. cbn [orb].
  destruct (f i).
  - cbn [iterTraces]. rewrite app_nil_r. reflexivity.
  - unfold bind at 1, get at 1. cbn [cancelRequested set_cancelRequested].
    destruct (c i).
    + cbn [iterTraces ret app]. rewrite !app_nil_r. reflexivity.
    + rewrite IH. destruct (loopSummary c f rest (S i)) as [[k r] b].
      cbn. reflexivity.
Qed.

End MotionLoop.

(** ** Changing [cancelRequested] leaves the rest alone *)

Lemma env_set_cancelRequested b w : env (set_cancelRequested b w) = env w.
Proof. reflexivity. Qed.

Lemma ebb_set_cancelRequested b w : ebb (set_cancelRequested b w) = ebb w.
Proof. reflexivity. Qed.

Lemma clients_set_cancelRequested b w :
  clients (set_cancelRequested b w) = clients w.
Proof. reflexivity. Qed.

Lemma cancelRequested_set_cancelRequested b w :
  cancelRequested (set_cancelRequested b w) = b.
Proof. reflexivity. Qed.

Lemma set_cancelRequested_twice b b' w :
  set_cancelRequested b' (set_cancelRequested b w) = set_cancelRequested b' w.
Proof. reflexivity. Qed.

Lemma deliveries_set_cancelRequested b w msg cs :
  deliveries (set_cancelRequested b w) msg cs = deliveries w msg cs.
Proof. reflexivity. Qed.

Lemma waitingTrace_set_cancelRequested b w p :
  waitingTrace (set_cancelRequested b w) p = waitingTrace w p.
Proof. reflexivity. Qed.

Lemma devTrace_set_cancelRequested b w p op :
  devTrace (set_cancelRequested b w) p op = devTrace w p op.
Proof. reflexivity. Qed.

Lemma bcastTrace_set_cancelRequested b w msg :
  bcastTrace (set_cancelRequested b w) msg = bcastTrace w msg.
Proof. reflexivity. Qed.

Create Rewrite HintDb frame.
#[local] Hint Rewrite
  env_set_cancelRequested ebb_set_cancelRequested clients_set_cancelRequested
  cancelRequested_set_cancelRequested set_cancelRequested_twice
  deliveries_set_cancelRequested waitingTrace_set_cancelRequested
  devTrace_set_cancelRequested bcastTrace_set_cancelRequested
  orb_false_r orb_true_r : frame.

Lemma broadcast_run' w msg : broadcast msg w = (Ok tt, w, bcastTrace w msg).
Proof. apply broadcast_run. Qed.

(** ** The two plot functions *)

Lemma doPlot_body_run w d i m b :
  ebb w = Some d ->
  (broadcast (Progress i) ;; awaitDev (AwMotion i) (ExecuteMotion m))
    (set_cancelRequested b w)
  = (if failAt w i then Throw (DeviceError (ExecuteMotion m)) else Ok tt,
     set_cancelRequested (b || cancelAt w i) w,
     doIter w i m).
Proof.
  intros He. unfold bind. rewrite broadcast_run'.
  erewrite awaitDev_run by exact He. autorewrite with frame.
  unfold failAt, cancelAt, doIter.
  destruct (opFails (env w) (AwMotion i)); reflexivity.
Qed.

Lemma simulatePlot_body_run w n i m b :
  (console (MotionOf (i + 1) n) ;;
   broadcast (Progress i) ;;
   awaitTimeout (AwMotion i) (duration m * inject_Z 1000)%Q)
    (set_cancelRequested b w)
  = (if never i then Throw (DeviceError (ExecuteMotion m)) else Ok tt,
     set_cancelRequested (b || cancelAt w i) w,
     simIter w n i m).
Proof.
  unfold bind, console, emit. rewrite broadcast_run', awaitTimeout_run.
  autorewrite with frame. reflexivity.
Qed.

Lemma cleanup_run w d b :
  ebb w = Some d ->
  exists r b' t,
    (awaitDev AwIdle WaitUntilMotorsIdle ;; awaitDev AwDisable DisableMotors)
      (set_cancelRequested b w)
    = (r, set_cancelRequested b' w, t)
    /\ CleanupRun w b r b' t.
Proof.
  intros He. unfold bind.
  erewrite awaitDev_run by exact He. autorewrite with frame.
  destruct (opFails (env w) AwIdle) eqn:Hidle.
  - do 3 eexists. split; [reflexivity|]. apply IdleFails; assumption.
  - erewrite awaitDev_run by exact He. autorewrite with frame.
    destruct (opFails (env w) AwDisable) eqn:Hdis.
    + do 3 eexists. split; [reflexivity|]. apply DisableFails; assumption.
    + do 3 eexists. split; [reflexivity|]. apply CleanedUp; assumption.
Qed.

(** ** How a motion loop ends *)

Lemma loopSummary_outcome c f ms i k r b :
  loopSummary c f ms i = (k, r, b) ->
  r = Ok tt \/ exists e, r = Throw e.
Proof.
  revert i k r b. induction ms as [|m rest IH]; intros i k r b H; cbn in H.
  - inversion H. left. reflexivity.
  - destruct (f i).
    + inversion H. right. eexists. reflexivity.
    + destruct (c i).
      * inversion H. left. reflexivity.
      * destruct (loopSummary c f rest (S i)) as [[k' r'] b'] eqn:E.
        inversion H; subst. eapply IH. exact E.
Qed.

Ltac trace_eq :=
  unfold prologue; cbn [app];
  rewrite ?app_nil_r, <- ?app_assoc; cbn [app]; reflexivity.

Lemma doPlot_run plan w d :
  ebb w = Some d ->
  exists r b t,
    doPlot plan w = (r, set_cancelRequested b w, t) /\ DoPlotRun plan w r b t.
Proof.
  intros He. unfold doPlot.
  unfold bind at 1. erewrite awaitDev_run by exact He.
  destruct (opFails (env w) AwEnable) eqn:Hen.
  { do 3 eexists. split; [reflexivity|]. apply EnableFails; assumption. }
  unfold bind at 1.
  destruct (firstPenMotion plan) as [pm|] eqn:Hpen.
  2:{ do 2 eexists. exists (devTrace w AwEnable (EnableMotors 2)).
      split; [apply f_equal; trace_eq|]. apply NoPenMotion; assumption. }
  unfold ret at 1. unfold bind at 1.
  erewrite awaitDev_run by exact He. autorewrite with frame.
  destruct (opFails (env w) AwInitPen) eqn:Hinit.
  { do 2 eexists. exists (prologue w pm).
    split; [apply f_equal; trace_eq|]. apply InitPenFails; assumption. }
  unfold bind at 1, modify at 1. autorewrite with frame.
  unfold bind at 1.
  rewrite (@motionLoop_run _ (cancelAt w) (failAt w) (doIter w) w
             (fun i m b => @doPlot_body_run w d i m b He)).
  destruct (loopSummary (cancelAt w) (failAt w) (motions plan) 0)
    as [[k r] b] eqn:Hloop.
  destruct (loopSummary_outcome _ _ _ _ Hloop) as [->|[e ->]].
  - unfold bind at 1, get at 1. autorewrite with frame.
    destruct b.
    + unfold bind at 1. unfold bind at 1, get at 1. unfold bind at 1.
      erewrite awaitDev_run by exact He. autorewrite with frame.
      destruct (opFails (env w) AwPenUp) eqn:Hup.
      * do 2 eexists.
        exists (prologue w pm ++ iterTraces (doIter w) (motions plan) 0 k
          ++ devTrace w AwPenUp (SetPenHeight (penPctToPos (env w) 0) 1000 None)).
        split; [apply f_equal; trace_eq|].
        eapply PenUpFails; eassumption.
      * unfold bind at 1. rewrite broadcast_run'. unfold modify.
        autorewrite with frame.
        destruct (@cleanup_run w d false He) as (r & b' & t & Hrun & Hclean).
        rewrite Hrun.
        exists r, b', (prologue w pm ++ iterTraces (doIter w) (motions plan) 0 k
         ++ devTrace w AwPenUp (SetPenHeight (penPctToPos (env w) 0) 1000 None)
         ++ bcastTrace w Cancelled ++ t).
        split; [apply f_equal; trace_eq|].
        eapply CancelledRun; eassumption.
    + unfold bind at 1. rewrite broadcast_run'.
      destruct (@cleanup_run w d false He) as (r & b' & t & Hrun & Hclean).
      rewrite Hrun.
      exists r, b', (prologue w pm ++ iterTraces (doIter w) (motions plan) 0 k
         ++ bcastTrace w Finished ++ t).
      split; [apply f_equal; trace_eq|].
      eapply FinishedRun; eassumption.
  - do 2 eexists.
    exists (prologue w pm ++ iterTraces (doIter w) (motions plan) 0 k).
    split; [apply f_equal; trace_eq|].
    eapply MotionFails; eassumption.
Qed.

Lemma loopSummary_never c ms : forall i,
  exists k b, loopSummary c never ms i = (k, Ok tt, b).
Proof.
  induction ms as [|m rest IH]; intros i; cbn.
  - eauto.
  - destruct (c i); [eauto|].
    destruct (IH (S i)) as (k & b & ->). eauto.
Qed.

Lemma loopSummary_le c f ms : forall i k r b,
  loopSummary c f ms i = (k, r, b) -> k <= List.length ms.
Proof.
  induction ms as [|m rest IH]; intros i k r b H; cbn in H.
  - inversion H. cbn. lia.
  - destruct (f i); [inversion H; cbn; lia|].
    destruct (c i); [inversion H; cbn; lia|].
    destruct (loopSummary c f rest (S i)) as [[k' r'] b'] eqn:E.
    inversion H; subst. apply IH in E. cbn. lia.
Qed.

Lemma loopSummary_completed c f ms : forall i k,
  loopSummary c f ms i = (k, Ok tt, false) ->
  k = List.length ms
  /\ forall j, j < k -> c (i + j) = false /\ f (i + j) = false.
Proof.
  induction ms as [|m rest IH]; intros i k H; cbn in H.
  - inversion H. split; [reflexivity|]. intros j Hj. lia.
  - destruct (f i) eqn:Hf; [discriminate H|].
    destruct (c i) eqn:Hc; [discriminate H|].
    destruct (loopSummary c f rest (S i)) as [[k' r'] b'] eqn:E.
    inversion H; subst. destruct (IH _ _ E) as [-> Hall].
    split; [reflexivity|]. intros [|j] Hj.
    + rewrite Nat.add_0_r. split; assumption.
    + replace (i + S j) with (S i + j) by lia. apply Hall. cbn in Hj. lia.
Qed.

Lemma loopSummary_broke c f ms : forall i k,
  loopSummary c f ms i = (k, Ok tt, true) ->
  exists k', k = S k' /\ c (i + k') = true
    /\ (forall j, j <= k' -> f (i + j) = false)
    /\ (forall j, j < k' -> c (i + j) = false).
Proof.
  induction ms as [|m rest IH]; intros i k H; cbn in H.
  - discriminate H.
  - destruct (f i) eqn:Hf; [discriminate H|].
    destruct (c i) eqn:Hc.
    + inversion H; subst. exists 0. rewrite Nat.add_0_r.
      repeat split; try assumption.
      * intros j Hj. replace j with 0 by lia. rewrite Nat.add_0_r. assumption.
      * intros j Hj. lia.
    + destruct (loopSummary c f rest (S i)) as [[k' r'] b'] eqn:E.
      inversion H; subst.
      destruct (IH _ _ E) as (k'' & -> & Hc' & Hf' & Hq).
      exists (S k''). replace (i + S k'') with (S i + k'') by lia.
      repeat split; try assumption.
      * intros [|j] Hj; [rewrite Nat.add_0_r; assumption|].
        replace (i + S j) with (S i + j) by lia. apply Hf'. lia.
      * intros [|j] Hj; [rewrite Nat.add_0_r; assumption|].
        replace (i + S j) with (S i + j) by lia. apply Hq. lia.
Qed.


Lemma loopSummary_no_failure c f ms : forall i k b,
  loopSummary c f ms i = (k, Ok tt, b) ->
  loopSummary c never ms i = (k, Ok tt, b).
Proof.
  induction ms as [|m rest IH]; intros i k b H; cbn in H |- *; [assumption|].
  destruct (f i); [discriminate H|].
  destruct (c i); [assumption|].
  destruct (loopSummary c f rest (S i)) as [[k' r'] b'] eqn:E.
  inversion H; subst. rewrite (IH _ _ _ E). reflexivity.
Qed.

Lemma simulatePlot_run plan w k b :
  loopSummary (cancelAt w) never (motions plan) 0 = (k, Ok tt, b) ->
  simulatePlot plan w
  = (Ok tt, set_cancelRequested false w,
     iterTraces (simIter w (List.length (motions plan))) (motions plan) 0 k
       ++ bcastTrace w (if b then Cancelled else Finished)).
Proof.
  intros Hloop. unfold simulatePlot.
  unfold bind at 1, modify at 1. unfold bind at 1.
  rewrite (@motionLoop_run _ (cancelAt w) never
             (simIter w (List.length (motions plan))) w
             (fun i m b => @simulatePlot_body_run w _ i m b)).
  rewrite Hloop. unfold bind at 1, get at 1. autorewrite with frame.
  destruct b.
  - unfold bind, modify. rewrite broadcast_run'. autorewrite with frame.
    cbn [app]. rewrite app_nil_r. reflexivity.
  - rewrite broadcast_run'. autorewrite with frame. reflexivity.
Qed.

(** ** Projections of the pieces of a trace *)

Lemma bcasts_app t1 t2 : bcasts (t1 ++ t2) = bcasts t1 ++ bcasts t2.
Proof. apply flat_map_app. Qed.

Lemma devCalls_app t1 t2 : devCalls (t1 ++ t2) = devCalls t1 ++ devCalls t2.
Proof. apply flat_map_app. Qed.

Lemma executed_app t1 t2 : executed (t1 ++ t2) = executed t1 ++ executed t2.
Proof. apply flat_map_app. Qed.

Lemma sleeps_app t1 t2 : sleeps (t1 ++ t2) = sleeps t1 ++ sleeps t2.
Proof. apply flat_map_app. Qed.

Lemma plotSteps_app t1 t2 : plotSteps (t1 ++ t2) = plotSteps t1 ++ plotSteps t2.
Proof. apply flat_map_app. Qed.

Lemma deliveredTo_app ws t1 t2 :
  deliveredTo ws (t1 ++ t2) = deliveredTo ws t1 ++ deliveredTo ws t2.
Proof. apply flat_map_app. Qed.

Lemma motorsOn_app t1 : forall on t2,
  motorsOn on (t1 ++ t2) = motorsOn (motorsOn on t1) t2.
Proof.
  induction t1 as [|a t1 IH]; intros on t2; [reflexivity|].
  destruct a as [| | [] [] | | | | | |]; cbn; apply IH.
Qed.

(** The sends of a broadcast carry no device call, no timer and no
    further broadcast. *)
Lemma deliveries_quiet w msg cs :
  bcasts (deliveries w msg cs) = []
  /\ devCalls (deliveries w msg cs) = []
  /\ executed (deliveries w msg cs) = []
  /\ sleeps (deliveries w msg cs) = []
  /\ plotSteps (deliveries w msg cs) = []
  /\ forall on, motorsOn on (deliveries w msg cs) = on.
Proof.
  unfold deliveries.
  induction cs as [|ws cs (IH1 & IH2 & IH3 & IH4 & IH5 & IH6)];
    [repeat split|].
  cbn [flat_map].
  rewrite bcasts_app, devCalls_app, executed_app, sleeps_app, plotSteps_app.
  rewrite IH1, IH2, IH3, IH4, IH5.
  repeat split; try (destruct (sendFails (env w) ws msg); reflexivity).
  intros on. rewrite motorsOn_app, IH6.
  destruct (sendFails (env w) ws msg); reflexivity.
Qed.

Lemma bcasts_bcastTrace w msg : bcasts (bcastTrace w msg) = [msg].
Proof.
  unfold bcastTrace. cbn. unfold bcasts in *.
  destruct (deliveries_quiet w msg (clients w)) as (H & _).
  unfold bcasts in H. rewrite H. reflexivity.
Qed.

Lemma devCalls_bcastTrace w msg : devCalls (bcastTrace w msg) = [].
Proof.
  unfold bcastTrace. cbn.
  destruct (deliveries_quiet w msg (clients w)) as (_ & H & _).
  unfold devCalls in H. rewrite H. reflexivity.
Qed.

Lemma executed_bcastTrace w msg : executed (bcastTrace w msg) = [].
Proof.
  unfold bcastTrace. cbn.
  destruct (deliveries_quiet w msg (clients w)) as (_ & _ & H & _).
  unfold executed in H. rewrite H. reflexivity.
Qed.

Lemma sleeps_bcastTrace w msg : sleeps (bcastTrace w msg) = [].
Proof.
  unfold bcastTrace. cbn.
  destruct (deliveries_quiet w msg (clients w)) as (_ & _ & _ & H & _).
  unfold sleeps in H. rewrite H. reflexivity.
Qed.

Lemma plotSteps_bcastTrace w msg :
  plotSteps (bcastTrace w msg)
  = match msg with Progress i => [Announce i] | _ => [] end.
Proof.
  unfold bcastTrace. cbn.
  destruct (deliveries_quiet w msg (clients w)) as (_ & _ & _ & _ & H & _).
  unfold plotSteps in H. rewrite H. destruct msg; reflexivity.
Qed.

Lemma motorsOn_bcastTrace w msg on : motorsOn on (bcastTrace w msg) = on.
Proof.
  unfold bcastTrace. cbn.
  apply (deliveries_quiet w msg (clients w)).
Qed.

Lemma bcasts_waitingTrace w p : bcasts (waitingTrace w p) = [].
Proof. unfold waitingTrace. destruct (cancelDuring (env w) p); reflexivity. Qed.

Lemma devCalls_waitingTrace w p : devCalls (waitingTrace w p) = [].
Proof. unfold waitingTrace. destruct (cancelDuring (env w) p); reflexivity. Qed.

Lemma executed_waitingTrace w p : executed (waitingTrace w p) = [].
Proof. unfold waitingTrace. destruct (cancelDuring (env w) p); reflexivity. Qed.

Lemma sleeps_waitingTrace w p : sleeps (waitingTrace w p) = [].
Proof. unfold waitingTrace. destruct (cancelDuring (env w) p); reflexivity. Qed.

Lemma plotSteps_waitingTrace w p : plotSteps (waitingTrace w p) = [].
Proof. unfold waitingTrace. destruct (cancelDuring (env w) p); reflexivity. Qed.

Lemma deliveredTo_waitingTrace ws w p : deliveredTo ws (waitingTrace w p) = [].
Proof. unfold waitingTrace. destruct (cancelDuring (env w) p); reflexivity. Qed.

Lemma motorsOn_waitingTrace w p on : motorsOn on (waitingTrace w p) = on.
Proof. unfold waitingTrace. destruct (cancelDuring (env w) p); reflexivity. Qed.

Lemma bcasts_devTrace w p op : bcasts (devTrace w p op) = [].
Proof. unfold devTrace. cbn. apply bcasts_waitingTrace. Qed.

Lemma devCalls_devTrace w p op :
  devCalls (devTrace w p op) = [(op, negb (opFails (env w) p))].
Proof.
  unfold devTrace. cbn. f_equal. apply devCalls_waitingTrace.
Qed.

Lemma executed_devTrace w p op :
  executed (devTrace w p op)
  = match op with ExecuteMotion m => [m] | _ => [] end.
Proof.
  unfold devTrace. cbn. fold (executed (waitingTrace w p)).
  rewrite executed_waitingTrace. destruct op; reflexivity.
Qed.

Lemma sleeps_devTrace w p op : sleeps (devTrace w p op) = [].
Proof. unfold devTrace. cbn. apply sleeps_waitingTrace. Qed.

Lemma plotSteps_devTrace w p op :
  plotSteps (devTrace w p op)
  = match op with ExecuteMotion m => [Run m] | _ => [] end.
Proof.
  unfold devTrace. cbn. fold (plotSteps (waitingTrace w p)).
  rewrite plotSteps_waitingTrace. destruct op; reflexivity.
Qed.

Lemma deliveredTo_devTrace ws w p op : deliveredTo ws (devTrace w p op) = [].
Proof. unfold devTrace. cbn. apply deliveredTo_waitingTrace. Qed.

Create Rewrite HintDb proj.
#[local] Hint Rewrite
  bcasts_app devCalls_app executed_app sleeps_app plotSteps_app
  deliveredTo_app motorsOn_app
  bcasts_bcastTrace devCalls_bcastTrace executed_bcastTrace sleeps_bcastTrace
  plotSteps_bcastTrace motorsOn_bcastTrace
  bcasts_waitingTrace devCalls_waitingTrace executed_waitingTrace
  sleeps_waitingTrace plotSteps_waitingTrace deliveredTo_waitingTrace
  motorsOn_waitingTrace
  bcasts_devTrace devCalls_devTrace executed_devTrace sleeps_devTrace
  plotSteps_devTrace deliveredTo_devTrace
  app_nil_l app_nil_r : proj.

(** ** Projections of the iterations of a loop *)

Lemma simIter_app w n i m :
  simIter w n i m
  = [Console (MotionOf (i + 1) n)] ++ bcastTrace w (Progress i)
      ++ [Sleep (duration m * inject_Z 1000)%Q] ++ waitingTrace w (AwMotion i).
Proof. reflexivity. Qed.

Lemma bcasts_doIters w ms : forall i k,
  k <= List.length ms ->
  bcasts (iterTraces (doIter w) ms i k) = map Progress (seq i k).
Proof.
  induction ms as [|m rest IH]; intros i [|k] Hk; try reflexivity.
  - cbn in Hk. lia.
  - cbn [iterTraces seq map]. unfold doIter at 1.
    autorewrite with proj. cbn [app]. f_equal. apply IH. cbn in Hk. lia.
Qed.

Lemma bcasts_simIters w n ms : forall i k,
  k <= List.length ms ->
  bcasts (iterTraces (simIter w n) ms i k) = map Progress (seq i k).
Proof.
  induction ms as [|m rest IH]; intros i [|k] Hk; try reflexivity.
  - cbn in Hk. lia.
  - cbn [iterTraces seq map]. rewrite simIter_app.
    autorewrite with proj. cbn [app bcasts flat_map]. f_equal. apply IH. cbn in Hk. lia.
Qed.

Lemma plotSteps_doIters w ms : forall i k,
  plotSteps (iterTraces (doIter w) ms i k) = stepsOf Run ms i k.
Proof.
  induction ms as [|m rest IH]; intros i [|k]; try reflexivity.
  cbn [iterTraces stepsOf]. unfold doIter at 1.
  autorewrite with proj. cbn [app]. rewrite IH. reflexivity.
Qed.

Lemma plotSteps_simIters w n ms : forall i k,
  plotSteps (iterTraces (simIter w n) ms i k)
  = stepsOf (fun m => Wait (duration m * inject_Z 1000)%Q) ms i k.
Proof.
  induction ms as [|m rest IH]; intros i [|k]; try reflexivity.
  cbn [iterTraces stepsOf]. rewrite simIter_app.
  autorewrite with proj. cbn [app plotSteps flat_map]. rewrite IH. reflexivity.
Qed.

Lemma executed_doIters w ms : forall i k,
  executed (iterTraces (doIter w) ms i k) = firstn k ms.
Proof.
  induction ms as [|m rest IH]; intros i [|k]; try reflexivity.
  cbn [iterTraces firstn]. unfold doIter at 1.
  autorewrite with proj. cbn [app]. rewrite IH. reflexivity.
Qed.

Lemma devCalls_doIters w ms : forall i k,
  map fst (devCalls (iterTraces (doIter w) ms i k))
  = map ExecuteMotion (firstn k ms).
Proof.
  induction ms as [|m rest IH]; intros i [|k]; try reflexivity.
  cbn [iterTraces firstn]. unfold doIter at 1.
  autorewrite with proj. cbn [app map fst]. rewrite IH. reflexivity.
Qed.

Lemma motorsOn_doIters w ms on : forall i k,
  motorsOn on (iterTraces (doIter w) ms i k) = on.
Proof.
  induction ms as [|m rest IH]; intros i [|k]; try reflexivity.
  cbn [iterTraces]. unfold doIter at 1, devTrace.
  autorewrite with proj. cbn [motorsOn]. autorewrite with proj. apply IH.
Qed.

Lemma sleeps_doIters w ms : forall i k,
  sleeps (iterTraces (doIter w) ms i k) = [].
Proof.
  induction ms as [|m rest IH]; intros i [|k]; try reflexivity.
  cbn [iterTraces]. unfold doIter at 1.
  autorewrite with proj. apply IH.
Qed.

Lemma sleeps_simIters w n ms : forall i k,
  sleeps (iterTraces (simIter w n) ms i k)
  = map (fun m => duration m * inject_Z 1000)%Q (firstn k ms).
Proof.
  induction ms as [|m rest IH]; intros i [|k]; try reflexivity.
  cbn [iterTraces firstn map]. rewrite simIter_app.
  autorewrite with proj. cbn [app sleeps flat_map]. rewrite IH. reflexivity.
Qed.

Lemma devCalls_simIters w n ms : forall i k,
  devCalls (iterTraces (simIter w n) ms i k) = [].
Proof.
  induction ms as [|m rest IH]; intros i [|k]; try reflexivity.
  cbn [iterTraces]. rewrite simIter_app.
  autorewrite with proj. cbn [app devCalls flat_map]. apply IH.
Qed.

Lemma deliveredTo_iters ws w n ms : forall i k,
  deliveredTo ws (iterTraces (simIter w n) ms i k)
  = deliveredTo ws (iterTraces (doIter w) ms i k).
Proof.
  induction ms as [|m rest IH]; intros i [|k]; try reflexivity.
  cbn [iterTraces]. rewrite simIter_app. unfold doIter at 1.
  autorewrite with proj. cbn [app deliveredTo flat_map]. rewrite IH. reflexivity.
Qed.

#[local] Hint Rewrite
  plotSteps_doIters plotSteps_simIters executed_doIters motorsOn_doIters
  sleeps_doIters sleeps_simIters devCalls_simIters : proj.

(** ** What cleanup and the whole run can be *)

Lemma CleanupRun_quiet w b r b' t :
  CleanupRun w b r b' t ->
  bcasts t = [] /\ plotSteps t = [] /\ executed t = [] /\ sleeps t = []
  /\ (forall ws, deliveredTo ws t = []).
Proof.
  intros H. destruct H; repeat split; intros; autorewrite with proj; reflexivity.
Qed.

Lemma CleanupRun_outcome w b r b' t :
  CleanupRun w b r b' t -> r = Ok tt \/ exists e, r = Throw e.
Proof. intros H. destruct H; eauto. Qed.

Lemma DoPlotRun_outcome plan w r b t :
  DoPlotRun plan w r b t -> r = Ok tt \/ exists e, r = Throw e.
Proof.
  intros H. destruct H; eauto using CleanupRun_outcome.
Qed.

(** ** Progress reports (C1) *)

Lemma doPlot_no_ebb plan w :
  ebb w = None -> doPlot plan w = (Throw TypeError, w, []).
Proof.
  intros He. unfold doPlot. unfold bind at 1.
  rewrite awaitDev_no_ebb by exact He. reflexivity.
Qed.


Ltac report := refine (conj _ (conj _ (conj _ (conj _ (conj _ _))))).


Lemma simulatePlot_report plan w :
  PlotReport plan w simStep
    (fst (fst (simulatePlot plan w))) (snd (simulatePlot plan w))
  /\ fst (fst (simulatePlot plan w)) = Ok tt.
Proof.
  destruct (loopSummary_never (cancelAt w) (motions plan) 0) as (k & b & Hloop).
  rewrite (simulatePlot_run _ _ Hloop). cbn [fst snd].
  split; [|reflexivity].
  pose proof (loopSummary_le _ _ _ _ Hloop) as Hk.
  exists k, [if b then Cancelled else Finished].
  destruct b; autorewrite with proj; rewrite bcasts_simIters by exact Hk.
  - destruct (loopSummary_broke _ _ _ _ Hloop) as (k' & -> & Hc & _ & _).
    report; try reflexivity; try discriminate; try assumption.
    + right. right. split; [reflexivity|lia].
    + intros Hquiet _. exfalso. cbn [Nat.add] in Hc.
      rewrite Hquiet in Hc by lia. discriminate Hc.
  - destruct (loopSummary_completed _ _ _ _ Hloop) as (-> & _).
    report; try reflexivity; try discriminate.
    + right. left. split; reflexivity.
    + intros _ _. split; reflexivity.
Qed.




(** ** Cleanup (C2) *)

Lemma motorsOn_devTrace w p op on :
  motorsOn on (devTrace w p op)
  = match op, opFails (env w) p with
    | EnableMotors _, false => true
    | DisableMotors, false => false
    | _, _ => on
    end.
Proof.
  unfold devTrace.
  destruct op, (opFails (env w) p); cbn [negb motorsOn];
    apply motorsOn_waitingTrace.
Qed.

Ltac motors :=
  autorewrite with proj; rewrite ?motorsOn_devTrace;
  repeat match goal with
         | H : opFails _ _ = _ |- _ => rewrite H
         | H : forall on, motorsOn on _ = on |- _ => rewrite H
         end;
  reflexivity.

Lemma In_devCalls_doIters w ms i k op ok :
  In (op, ok) (devCalls (iterTraces (doIter w) ms i k)) ->
  exists m, op = ExecuteMotion m.
Proof.
  intros H. apply (in_map fst) in H. rewrite devCalls_doIters in H.
  apply in_map_iff in H. destruct H as (m & Hm & _). exists m.
  symmetry. exact Hm.
Qed.

Lemma CleanupRun_calls w b r b' t :
  CleanupRun w b r b' t ->
  match r with
  | Ok _ =>
      devCalls t = [(WaitUntilMotorsIdle, true); (DisableMotors, true)]
      /\ forall on, motorsOn on t = false
  | _ =>
      ~ In (DisableMotors, true) (devCalls t)
      /\ ~ In (EnableMotors 2, true) (devCalls t)
      /\ forall on, motorsOn on t = on
  end.
Proof.
  intros H. destruct H as [Hidle|Hidle Hdis|Hidle Hdis];
    autorewrite with proj; rewrite ?Hidle, ?Hdis; cbn [negb app].
  - repeat split.
    + intros [H|[]]. discriminate H.
    + intros [H|[]]. discriminate H.
    + intros on. motors.
  - repeat split.
    + intros [H|[H|[]]]; discriminate H.
    + intros [H|[H|[]]]; discriminate H.
    + intros on. motors.
  - split; [reflexivity|].
    intros on. motors.
Qed.

(** C2, as amended.  When [doPlot] returns (after natural completion or
    after a cancellation, no device operation having failed), its last two
    device operations are [waitUntilMotorsIdle] and [disableMotors], in that
    order and both successful, and the motors are off afterwards.  When a
    device operation fails, [doPlot] throws without having disabled the
    motors: if [enableMotors] had succeeded they are still energized. *)
Theorem cleanup_when_returning plan w :
  (fst (fst (doPlot plan w)) = Ok tt ->
   (exists calls,
      devCalls (snd (doPlot plan w))
      = calls ++ [(WaitUntilMotorsIdle, true); (DisableMotors, true)])
   /\ forall on, motorsOn on (snd (doPlot plan w)) = false)
  /\ (forall e, fst (fst (doPlot plan w)) = Throw e ->
      ~ In (DisableMotors, true) (devCalls (snd (doPlot plan w)))
      /\ (In (EnableMotors 2, true) (devCalls (snd (doPlot plan w))) ->
          forall on, motorsOn on (snd (doPlot plan w)) = true)).
Proof.
  destruct (ebb w) as [d|] eqn:He.
  2:{ rewrite doPlot_no_ebb by exact He. cbn [fst snd]. split.
      - discriminate.
      - intros e _. split; intros []. }
  destruct (doPlot_run plan w He) as (r & b & t & -> & Hrun). cbn [fst snd].
  destruct Hrun as
    [ Hen | Hen Hpen | pm Hen Hpen Hinit | pm k e b Hen Hpen Hinit Hloop
    | pm k Hen Hpen Hinit Hloop Hup
    | pm k r b t Hen Hpen Hinit Hloop Hup Hclean
    | pm k r b t Hen Hpen Hinit Hloop Hclean ].
  - split; [discriminate|]. intros e _.
    autorewrite with proj. rewrite Hen. cbn [negb].
    split; intros [H|[]]; discriminate H.
  - split; [discriminate|]. intros e _.
    autorewrite with proj. rewrite Hen. cbn [negb].
    split.
    + intros [H|[]]; discriminate H.
    + intros _ on. motors.
  - split; [discriminate|]. intros e _.
    unfold prologue. autorewrite with proj. rewrite Hen, Hinit. cbn [negb app].
    split.
    + intros [H|[H|[]]]; discriminate H.
    + intros _ on. motors.
  - split; [discriminate|]. intros e' _.
    unfold prologue. autorewrite with proj. rewrite Hen, Hinit. cbn [negb app].
    split.
    + intros [H|[H|H]]; try discriminate H.
      apply In_devCalls_doIters in H. destruct H as [m H]. discriminate H.
    + intros _ on. motors.
  - split; [discriminate|]. intros e' _.
    unfold prologue. autorewrite with proj. rewrite Hen, Hinit, Hup.
    cbn [negb app].
    split.
    + intros [H|[H|H]]; try discriminate H.
      apply in_app_or in H. destruct H as [H|[H|[]]]; [|discriminate H].
      apply In_devCalls_doIters in H. destruct H as [m H]. discriminate H.
    + intros _ on. motors.
  - pose proof (CleanupRun_calls Hclean) as Hcalls.
    unfold prologue. autorewrite with proj. rewrite Hen, Hinit, Hup.
    cbn [negb app].
    split.
    + intros ->. destruct Hcalls as [Hcalls Hoff]. split.
      * rewrite Hcalls.
        exists ((EnableMotors 2, true)
                  :: (SetPenHeight (initialPos pm) 1000 (Some 1000%Z), true)
                  :: devCalls (iterTraces (doIter w) (motions plan) 0 k)
                  ++ [(SetPenHeight (penPctToPos (env w) 0) 1000 None, true)]).
        cbn [app]. rewrite <- !app_assoc. reflexivity.
      * intros on. autorewrite with proj. apply Hoff.
    + intros e ->. destruct Hcalls as (Hdis & Hen' & Hon). split.
      * intros [H|[H|H]]; try discriminate H.
        apply in_app_or in H. destruct H as [H|[H|H]]; [|discriminate H|].
        -- apply In_devCalls_doIters in H. destruct H as [m H]. discriminate H.
        -- apply Hdis. exact H.
      * intros _ on. motors.
  - pose proof (CleanupRun_calls Hclean) as Hcalls.
    unfold prologue. autorewrite with proj. rewrite Hen, Hinit.
    cbn [negb app].
    split.
    + intros ->. destruct Hcalls as [Hcalls Hoff]. split.
      * rewrite Hcalls.
        exists ((EnableMotors 2, true)
                  :: (SetPenHeight (initialPos pm) 1000 (Some 1000%Z), true)
                  :: devCalls (iterTraces (doIter w) (motions plan) 0 k)).
        reflexivity.
      * intros on. autorewrite with proj. apply Hoff.
    + intros e ->. destruct Hcalls as (Hdis & Hen' & Hon). split.
      * intros [H|[H|H]]; try discriminate H.
        apply in_app_or in H. destruct H as [H|H].
        -- apply In_devCalls_doIters in H. destruct H as [m H]. discriminate H.
        -- apply Hdis. exact H.
      * intros _ on. motors.
Qed.

(** A cancelled plot on the bench returns, and ends with the cleanup. *)
Lemma cleanup_when_returning_witness :
  (exists calls,
     devCalls (snd (doPlot planPenStroke (bench cancelFirst)))
     = calls ++ [(WaitUntilMotorsIdle, true); (DisableMotors, true)])
  /\ forall on, motorsOn on (snd (doPlot planPenStroke (bench cancelFirst))) = false.
Proof.
  apply (proj1 (cleanup_when_returning planPenStroke (bench cancelFirst))).
  reflexivity.
Defined.

(** C2 as first stated asks for the cleanup after a failure too.  When
    [executeMotion] fails for motion 0, neither [waitUntilMotorsIdle] nor
    [disableMotors] is called and the motors stay on. *)
Lemma cleanup_skipped_counterexample :
  fst (fst (doPlot planPenStroke (bench failFirst)))
  = Throw (DeviceError (ExecuteMotion penDown))
  /\ devCalls (snd (doPlot planPenStroke (bench failFirst)))
     = [(EnableMotors 2, true);
        (SetPenHeight 27831 1000 (Some 1000%Z), true);
        (ExecuteMotion penDown, false)]
  /\ ~ In WaitUntilMotorsIdle (devOps (snd (doPlot planPenStroke (bench failFirst))))
  /\ ~ In DisableMotors (devOps (snd (doPlot planPenStroke (bench failFirst))))
  /\ motorsOn false (snd (doPlot planPenStroke (bench failFirst))) = true.
Proof.
  split; [reflexivity|]. split; [reflexivity|].
  split; [|split; [|reflexivity]].
  - vm_compute. intros [H|[H|[H|[]]]]; discriminate H.
  - vm_compute. intros [H|[H|[H|[]]]]; discriminate H.
Qed.

(** ** Cancelling during a motion (C3) *)







(** ** Simulation against hardware (C4) *)

Lemma iterTraces_ext tr tr' ms :
  (forall i m, tr i m = tr' i m) ->
  forall i k, iterTraces tr ms i k = iterTraces tr' ms i k.
Proof.
  intros Hext. induction ms as [|m rest IH]; intros i [|k]; try reflexivity.
  cbn [iterTraces]. rewrite Hext, IH. reflexivity.
Qed.

Lemma bcastTrace_agree w w' msg :
  clients w' = clients w -> env w' = env w ->
  bcastTrace w' msg = bcastTrace w msg.
Proof.
  intros Hc He. unfold bcastTrace, deliveries. rewrite Hc, He. reflexivity.
Qed.

Lemma simIter_agree w w' n i m :
  clients w' = clients w -> env w' = env w ->
  simIter w' n i m = simIter w n i m.
Proof.
  intros Hc He. unfold simIter, waitingTrace.
  rewrite (bcastTrace_agree w w' _ Hc He), He. reflexivity.
Qed.

Lemma cancelAt_agree w w' : env w' = env w -> cancelAt w' = cancelAt w.
Proof. intros He. unfold cancelAt. rewrite He. reflexivity. Qed.

Lemma no_terminal_in_progress l : existsb isTerminal (map Progress l) = false.
Proof. induction l as [|i l IH]; [reflexivity|exact IH]. Qed.

Lemma reportsTerminal_simulatePlot plan w :
  reportsTerminal (snd (simulatePlot plan w)) = true.
Proof.
  destruct (loopSummary_never (cancelAt w) (motions plan) 0) as (k & b & Hloop).
  rewrite (simulatePlot_run plan w Hloop). cbn [snd]. unfold reportsTerminal.
  autorewrite with proj.
  rewrite bcasts_simIters by (eapply loopSummary_le; exact Hloop).
  rewrite existsb_app, no_terminal_in_progress. destruct b; reflexivity.
Qed.

(** C4, as amended.  Take a run of the hardware path and a simulation of
    the same plan under the same cancel requests and with the same clients.
    The two broadcast the same sequence of events exactly when the hardware
    run gets as far as its terminal event, [Finished] or [Cancelled] (so the
    plan has a pen motion and no device operation fails before that event;
    the cleanup after it may fail).  In that case the simulation also
    delivers the same messages to every client and waits for the estimated
    duration of each motion the hardware executes.  A simulation always
    returns and issues no device operation; the hardware path sets no
    timer. *)
Theorem simulation_matches_hardware plan w w' :
  clients w' = clients w ->
  env w' = env w ->
  (reportsTerminal (snd (doPlot plan w)) = true
   <-> bcasts (snd (simulatePlot plan w')) = bcasts (snd (doPlot plan w)))
  /\ (reportsTerminal (snd (doPlot plan w)) = true ->
      (forall ws, deliveredTo ws (snd (simulatePlot plan w'))
                  = deliveredTo ws (snd (doPlot plan w)))
      /\ sleeps (snd (simulatePlot plan w'))
         = map (fun m => duration m * inject_Z 1000)%Q
               (executed (snd (doPlot plan w))))
  /\ fst (fst (simulatePlot plan w')) = Ok tt
  /\ devCalls (snd (simulatePlot plan w')) = []
  /\ sleeps (snd (doPlot plan w)) = [].
Proof.
  intros Hcs Henv.
  assert (Hmain :
    reportsTerminal (snd (doPlot plan w)) = true ->
    fst (fst (simulatePlot plan w')) = Ok tt
    /\ bcasts (snd (simulatePlot plan w')) = bcasts (snd (doPlot plan w))
    /\ (forall ws, deliveredTo ws (snd (simulatePlot plan w'))
                   = deliveredTo ws (snd (doPlot plan w)))
    /\ sleeps (snd (simulatePlot plan w'))
       = map (fun m => duration m * inject_Z 1000)%Q
             (executed (snd (doPlot plan w)))
    /\ devCalls (snd (simulatePlot plan w')) = []
    /\ sleeps (snd (doPlot plan w)) = []).
  { intros Hterm.
    destruct (ebb w) as [d|] eqn:He.
    2:{ rewrite doPlot_no_ebb in Hterm by exact He. discriminate Hterm. }
    destruct (doPlot_run plan w He) as (r & b & t & Hrun & Hshape).
    rewrite Hrun in Hterm |- *. cbn [fst snd] in Hterm |- *.
    assert (Hsim : forall k c,
      loopSummary (cancelAt w) (failAt w) (motions plan) 0 = (k, Ok tt, c) ->
      simulatePlot plan w'
      = (Ok tt, set_cancelRequested false w',
         iterTraces (simIter w (List.length (motions plan))) (motions plan) 0 k
           ++ bcastTrace w (if c then Cancelled else Finished))).
    { intros k c Hloop. apply loopSummary_no_failure in Hloop.
      rewrite <- (cancelAt_agree w w' Henv) in Hloop.
      rewrite (simulatePlot_run _ _ Hloop).
      rewrite (bcastTrace_agree w w' _ Hcs Henv).
      rewrite (iterTraces_ext (simIter w' (List.length (motions plan)))
                 (simIter w (List.length (motions plan)))).
      - reflexivity.
      - intros i m. apply simIter_agree; assumption. }
    inversion Hshape as
      [ Hen
      | Hen Hpen
      | pm Hen Hpen Hinit
      | pm k e b' Hen Hpen Hinit Hloop
      | pm k Hen Hpen Hinit Hloop Hup
      | pm k r' b' t' Hen Hpen Hinit Hloop Hup Hclean
      | pm k r' b' t' Hen Hpen Hinit Hloop Hclean ]; subst;
      try (pose proof (loopSummary_le _ _ _ _ Hloop) as Hk).
    1-5: exfalso; revert Hterm; unfold reportsTerminal, prologue;
      autorewrite with proj; rewrite ?bcasts_doIters by exact Hk;
      cbn [app]; rewrite ?app_nil_r, ?no_terminal_in_progress;
      discriminate.
    - rewrite (Hsim _ _ Hloop). cbn [fst snd].
      destruct (CleanupRun_quiet Hclean) as (Hb & _ & Hx & Hs & Hd).
      split; [reflexivity|].
      split; [|split; [|split; [|split]]].
      + unfold prologue. autorewrite with proj.
        rewrite bcasts_simIters, bcasts_doIters by exact Hk.
        rewrite Hb. reflexivity.
      + intros ws. unfold prologue. autorewrite with proj.
        rewrite deliveredTo_iters, Hd. autorewrite with proj. reflexivity.
      + unfold prologue. autorewrite with proj. rewrite Hx.
        autorewrite with proj. reflexivity.
      + autorewrite with proj. reflexivity.
      + unfold prologue. autorewrite with proj. exact Hs.
    - rewrite (Hsim _ _ Hloop). cbn [fst snd].
      destruct (CleanupRun_quiet Hclean) as (Hb & _ & Hx & Hs & Hd).
      split; [reflexivity|].
      split; [|split; [|split; [|split]]].
      + unfold prologue. autorewrite with proj.
        rewrite bcasts_simIters, bcasts_doIters by exact Hk.
        rewrite Hb. reflexivity.
      + intros ws. unfold prologue. autorewrite with proj.
        rewrite deliveredTo_iters, Hd. autorewrite with proj. reflexivity.
      + unfold prologue. autorewrite with proj. rewrite Hx.
        autorewrite with proj. reflexivity.
      + autorewrite with proj. reflexivity.
      + unfold prologue. autorewrite with proj. exact Hs. }
  assert (Halways :
    fst (fst (simulatePlot plan w')) = Ok tt
    /\ devCalls (snd (simulatePlot plan w')) = []
    /\ sleeps (snd (doPlot plan w)) = []).
  { destruct (loopSummary_never (cancelAt w') (motions plan) 0)
      as (k & b & Hloop).
    rewrite (simulatePlot_run plan w' Hloop). cbn [fst snd].
    split; [reflexivity|]. split.
    - autorewrite with proj. reflexivity.
    - destruct (ebb w) as [d|] eqn:He.
      + destruct (doPlot_run plan w He) as (r & b0 & t & -> & Hrun).
        cbn [snd]. destruct Hrun;
          try (match goal with
               | H : CleanupRun _ _ _ _ _ |- _ =>
                   destruct (CleanupRun_quiet H) as (_ & _ & _ & Hs & _)
               end);
          unfold prologue; autorewrite with proj; rewrite ?Hs; reflexivity.
      + rewrite doPlot_no_ebb by exact He. reflexivity. }
  split; [split|split; [|exact Halways]].
  - intros Hterm. apply (Hmain Hterm).
  - intros Hb. unfold reportsTerminal. rewrite <- Hb.
    apply reportsTerminal_simulatePlot.
  - intros Hterm. destruct (Hmain Hterm) as (_ & _ & Hd & Hs & _).
    split; assumption.
Qed.

(** A plot whose cleanup fails, on the bench and simulated at the desk:
    the hardware path throws after [Finished], and the events are the
    same. *)
Lemma simulation_matches_hardware_witness :
  bcasts (snd (simulatePlot planPenStroke (desk idleFails)))
  = bcasts (snd (doPlot planPenStroke (bench idleFails)))
  /\ bcasts (snd (doPlot planPenStroke (bench idleFails)))
     = [Progress 0; Progress 1; Finished]
  /\ fst (fst (doPlot planPenStroke (bench idleFails)))
     = Throw (DeviceError WaitUntilMotorsIdle).
Proof.
  split; [|split; reflexivity].
  apply (proj1 (proj1 (simulation_matches_hardware planPenStroke
                         (bench idleFails) (desk idleFails)
                         eq_refl eq_refl))).
  reflexivity.
Defined.

(** C4 as first stated compares the two paths for every plan.  For a plan
    without a pen motion the hardware path broadcasts nothing while the
    simulation reports the whole plan; and when motion 0 fails on the device
    the hardware path stops after its progress event. *)
Lemma simulation_differs_counterexample :
  (bcasts (snd (doPlot planStrokeOnly (bench calm))) = []
   /\ bcasts (snd (simulatePlot planStrokeOnly (desk calm)))
      = [Progress 0; Finished])
  /\ (bcasts (snd (doPlot planPenStroke (bench failFirst))) = [Progress 0]
      /\ bcasts (snd (simulatePlot planPenStroke (desk failFirst)))
         = [Progress 0; Progress 1; Finished])
  /\ bcasts (snd (simulatePlot planStrokeOnly (desk calm)))
     <> bcasts (snd (doPlot planStrokeOnly (bench calm))).
Proof.
  repeat split. vm_compute. discriminate.
Qed.

(** ** The pen before the first motion (C7) *)

Lemma find_first A (p : A -> bool) (l : list A) x :
  find p l = Some x ->
  exists before after,
    l = before ++ x :: after
    /\ p x = true
    /\ forall y, In y before -> p y = false.
Proof.
  induction l as [|a l IH]; cbn; [discriminate|].
  destruct (p a) eqn:Hp.
  - intros H. inversion H; subst. exists [], l.
    repeat split; [assumption|]. intros y [].
  - intros H. destruct (IH H) as (before & after & -> & Hx & Hfirst).
    exists (a :: before), after. repeat split; [assumption|].
    intros y [<-|Hy]; [assumption|]. apply Hfirst. exact Hy.
Qed.

Lemma firstPenMotion_first plan pm :
  firstPenMotion plan = Some pm ->
  exists before after,
    motions plan = before ++ Pen pm :: after
    /\ forall x, In x before -> isPenMotion x = false.
Proof.
  unfold firstPenMotion.
  destruct (find isPenMotion (motions plan)) as [[pm'|xm]|] eqn:Hfind;
    try discriminate.
  intros H. inversion H; subst.
  destruct (find_first _ _ Hfind) as (before & after & Heq & _ & Hfirst).
  exists before, after. split; assumption.
Qed.

(** C7.  In every execution of [doPlot], if any motion of the plan is
    executed, then the plan has a first pen motion, and the first two device
    operations were [enableMotors(2)] and
    [setPenHeight(firstPenMotion.initialPos, 1000, 1000)], both successful:
    the pen is set before any motion runs, wherever the pen motion stands in
    the plan.  And once the motors are enabled and the plan has a pen
    motion, setting the pen is the next device operation. *)
Theorem pen_set_before_motions plan w :
  (executed (snd (doPlot plan w)) <> [] ->
   exists pm before after rest,
     motions plan = before ++ Pen pm :: after
     /\ (forall x, In x before -> isPenMotion x = false)
     /\ devCalls (snd (doPlot plan w))
        = (EnableMotors 2, true)
            :: (SetPenHeight (initialPos pm) 1000 (Some 1000%Z), true)
            :: rest)
  /\ (forall d pm,
        ebb w = Some d ->
        opFails (env w) AwEnable = false ->
        firstPenMotion plan = Some pm ->
        exists rest,
          devCalls (snd (doPlot plan w))
          = (EnableMotors 2, true)
              :: (SetPenHeight (initialPos pm) 1000 (Some 1000%Z),
                  negb (opFails (env w) AwInitPen))
              :: rest).
Proof.
  destruct (ebb w) as [d|] eqn:He.
  2:{ rewrite doPlot_no_ebb by exact He. cbn [fst snd]. split.
      - intros H. exfalso. apply H. reflexivity.
      - intros d pm Habs. discriminate Habs. }
  destruct (doPlot_run plan w He) as (r & b & t & -> & Hrun). cbn [fst snd].
  destruct Hrun as
    [ Hen | Hen Hpen | pm Hen Hpen Hinit | pm k e b Hen Hpen Hinit Hloop
    | pm k Hen Hpen Hinit Hloop Hup
    | pm k r b t Hen Hpen Hinit Hloop Hup Hclean
    | pm k r b t Hen Hpen Hinit Hloop Hclean ];
    unfold prologue; autorewrite with proj;
    rewrite ?Hen, ?Hinit; cbn [negb app].
  - split.
    + intros H. exfalso. apply H. reflexivity.
    + intros d' pm' _ Habs. discriminate Habs.
  - split.
    + intros H. exfalso. apply H. reflexivity.
    + intros d' pm' _ _ Habs. congruence.
  - split.
    + intros H. exfalso. apply H. reflexivity.
    + intros d' pm' _ _ Hpm. assert (pm' = pm) by congruence. subst pm'.
      eexists. reflexivity.
  - destruct (firstPenMotion_first _ Hpen) as (before & after & Hplan & Hfirst).
    split.
    + intros _. exists pm, before, after. eexists. repeat split; eassumption.
    + intros d' pm' _ _ Hpm. assert (pm' = pm) by congruence. subst pm'.
      eexists. reflexivity.
  - destruct (firstPenMotion_first _ Hpen) as (before & after & Hplan & Hfirst).
    split.
    + intros _. exists pm, before, after. eexists. repeat split; eassumption.
    + intros d' pm' _ _ Hpm. assert (pm' = pm) by congruence. subst pm'.
      eexists. reflexivity.
  - destruct (firstPenMotion_first _ Hpen) as (before & after & Hplan & Hfirst).
    split.
    + intros _. exists pm, before, after. eexists. repeat split; eassumption.
    + intros d' pm' _ _ Hpm. assert (pm' = pm) by congruence. subst pm'.
      eexists. reflexivity.
  - destruct (firstPenMotion_first _ Hpen) as (before & after & Hplan & Hfirst).
    split.
    + intros _. exists pm, before, after. eexists. repeat split; eassumption.
    + intros d' pm' _ _ Hpm. assert (pm' = pm) by congruence. subst pm'.
      eexists. reflexivity.
Qed.

(** A plan whose pen motion comes second: the pen is still set first. *)
Lemma pen_set_before_motions_witness :
  exists pm before after rest,
    motions (mkPlan [stroke; penDown; stroke]) = before ++ Pen pm :: after
    /\ (forall x, In x before -> isPenMotion x = false)
    /\ devCalls (snd (doPlot (mkPlan [stroke; penDown; stroke]) (bench calm)))
       = (EnableMotors 2, true)
           :: (SetPenHeight (initialPos pm) 1000 (Some 1000%Z), true)
           :: rest.
Proof.
  apply (proj1 (pen_set_before_motions (mkPlan [stroke; penDown; stroke])
                  (bench calm))).
  vm_compute. discriminate.
Defined.

(** ** Broadcasting (C6) *)

Lemma deliveredTo_deliveries w msg ws cs :
  deliveredTo ws (deliveries w msg cs)
  = if sendFails (env w) ws msg then []
    else repeat msg (count_occ Nat.eq_dec cs ws).
Proof.
  induction cs as [|c cs IH].
  - cbn. destruct (sendFails (env w) ws msg); reflexivity.
  - unfold deliveries in *. cbn [flat_map]. rewrite deliveredTo_app, IH.
    cbn [count_occ]. destruct (Nat.eq_dec c ws) as [->|Hne].
    + destruct (sendFails (env w) ws msg); cbn; [reflexivity|].
      rewrite Nat.eqb_refl. reflexivity.
    + apply Nat.eqb_neq in Hne.
      destruct (sendFails (env w) c msg); cbn; rewrite ?Hne; reflexivity.
Qed.

(** C6.  [broadcast(event)] always returns to its caller without an error
    and without changing the server state; each client of [clients] is sent
    the event once per registration; what a client receives depends on its
    own socket only (the event, unless its own send throws), whatever
    happens to the sends to the others; and each send that throws is
    logged. *)
Theorem broadcast_isolates_failures w msg :
  broadcast msg w = (Ok tt, w, Bcast msg :: deliveries w msg (clients w))
  /\ (forall ws,
        deliveredTo ws (snd (broadcast msg w))
        = if sendFails (env w) ws msg then []
          else repeat msg (count_occ Nat.eq_dec (clients w) ws))
  /\ (forall ws, In ws (clients w) ->
        if sendFails (env w) ws msg
        then In (Console (SendFailed (SendError ws))) (snd (broadcast msg w))
        else In (WsSend ws msg true) (snd (broadcast msg w))).
Proof.
  rewrite broadcast_run. cbn [snd]. split; [reflexivity|]. split.
  - intros ws. cbn. apply deliveredTo_deliveries.
  - intros ws Hin. destruct (sendFails (env w) ws msg) eqn:Hs; right.
    + apply deliveries_warned; assumption.
    + apply deliveries_sent; assumption.
Qed.

(** Client 1 cannot be reached; client 2 gets the event. *)
Lemma broadcast_isolates_failures_witness :
  deliveredTo 2
    (snd (broadcast Finished
            (bench (mkEnv (fun _ => 0%Z) (fun _ => false) (fun _ => false)
                          (fun ws _ => Nat.eqb ws 1) false))))
  = [Finished].
Proof.
  rewrite (proj1 (proj2 (broadcast_isolates_failures
                           (bench (mkEnv (fun _ => 0%Z) (fun _ => false)
                                         (fun _ => false)
                                         (fun ws _ => Nat.eqb ws 1) false))
                           Finished))).
  reflexivity.
Defined.

(** ** A new observer (C8) *)

(** C8.  The connection handler registers the new client and sends it, and
    only it, exactly one message: [dev] with the path of the connected
    device, or with [null] when there is none.  Nothing else is done, and
    the handler fails only if that send throws. *)
Theorem new_observer_gets_device_state w ws :
  onConnection ws w
  = (if sendFails (env w) ws (DevMsg (currentPath w))
     then Throw (SendError ws) else Ok tt,
     set_clients (clients w ++ [ws]) w,
     [WsSend ws (DevMsg (currentPath w))
             (negb (sendFails (env w) ws (DevMsg (currentPath w))))])
  /\ currentPath w = match ebb w with
                     | Some d => Some (port_path d)
                     | None => None
                     end.
Proof.
  split; [|reflexivity].
  unfold onConnection, bind, modify, get, ws_send. cbn.
  change (currentPath (set_clients (clients w ++ [ws]) w)) with (currentPath w).
  destruct (sendFails (env w) ws (DevMsg (currentPath w))); reflexivity.
Qed.

(** ** Commands without a device (C10) *)

(** C10.  With no device connected, [limp] and [setPenHeight] (with or
    without a payload) do nothing at all: no device operation, no error, no
    reply, no broadcast, no change of state.  [ping] is answered with one
    [pong] to the sender, device or not. *)
Theorem commands_without_device w ws p :
  (ebb w = None ->
   onMessage ws (Text (Some (JObj "limp" p))) w = (Ok tt, w, [])
   /\ onMessage ws (Text (Some (JObj "setPenHeight" p))) w = (Ok tt, w, []))
  /\ onMessage ws (Text (Some (JObj "ping" p))) w
     = (if sendFails (env w) ws Pong then Throw (SendError ws) else Ok tt,
        w, [WsSend ws Pong (negb (sendFails (env w) ws Pong))]).
Proof.
  split.
  - intros He. unfold onMessage, bind, ret, get. cbn. rewrite He.
    split; reflexivity.
  - unfold onMessage, bind, ret, ws_send. cbn.
    destruct (sendFails (env w) ws Pong); reflexivity.
Qed.

(** At the desk, [limp] and [setPenHeight] without a payload do nothing. *)
Lemma commands_without_device_witness :
  onMessage 1 (Text (Some (JObj "limp" None))) (desk calm)
  = (Ok tt, desk calm, [])
  /\ onMessage 1 (Text (Some (JObj "setPenHeight" None))) (desk calm)
     = (Ok tt, desk calm, []).
Proof.
  apply (proj1 (commands_without_device (desk calm) 1 None)).
  reflexivity.
Defined.

(** ** The wake lock (C9) *)

Lemma acquireWakeLock_run w :
  acquireWakeLock w
  = (Ok (negb (wakeLockFails (env w))), w,
     if wakeLockFails (env w)
     then [WakeAcquire false; Console NoWakeLock]
     else [WakeAcquire true]).
Proof.
  unfold acquireWakeLock, tryCatch, bind, get, emit, console, emit, ret, throw.
  destruct (wakeLockFails (env w)); reflexivity.
Qed.

Lemma plotOrSimulate_outcome plan w :
  fst (fst (plotOrSimulate plan w)) = Ok tt
  \/ exists e, fst (fst (plotOrSimulate plan w)) = Throw e.
Proof.
  unfold plotOrSimulate, bind, get.
  destruct (ebb w) as [d|] eqn:He.
  - destruct (doPlot_run plan w He) as (r & b & t & -> & Hrun).
    cbn [fst snd app]. exact (DoPlotRun_outcome Hrun).
  - destruct (simulatePlot_report plan w) as [_ Hok].
    destruct (simulatePlot plan w) as [[r w'] t]. cbn [fst snd] in *.
    left. exact Hok.
Qed.

(** C9.  A plot request logs, acknowledges, and tries to take the wake lock
    before the plot starts.  If the lock is taken, it is released as the
    very last action of the request, whether the plot returned (finished or
    cancelled) or threw, and the outcome of the plot remains the outcome of
    the request.  If taking the lock fails, that is logged, the same plot
    runs all the same, and nothing is released.  A request whose body is
    not a plan ends with what [Plan.deserialize] throws, before anything is
    logged and before a lock is taken. *)
Theorem wake_lock_scoped plan w :
  postPlot (Resolved plan) w
  = (fst (fst (plotOrSimulate plan w)),
     snd (fst (plotOrSimulate plan w)),
     [Console ReceivedPlan;
      Console (match ebb w with Some _ => BeginningPlot | None => SimulatingPlot end);
      Respond 200]
     ++ (if wakeLockFails (env w)
         then [WakeAcquire false; Console NoWakeLock]
         else [WakeAcquire true])
     ++ snd (plotOrSimulate plan w)
     ++ (match fst (fst (plotOrSimulate plan w)) with
         | Ok _ => [Console PlotTook]
         | _ => []
         end)
     ++ (if wakeLockFails (env w) then [] else [WakeRelease]))
  /\ (fst (fst (plotOrSimulate plan w)) = Ok tt
      \/ exists e, fst (fst (plotOrSimulate plan w)) = Throw e)
  /\ (forall e, postPlot (Rejected e) w = (Throw e, w, [])).
Proof.
  split; [|split; [apply plotOrSimulate_outcome|intros e; reflexivity]].
  unfold postPlot.
  unfold bind at 1, ret at 1.
  unfold bind at 1, console at 1, emit at 1.
  unfold bind at 1, get at 1.
  unfold bind at 1, console at 1, emit at 1.
  unfold bind at 1, emit at 1.
  unfold bind at 1. rewrite acquireWakeLock_run.
  unfold tryFinally. unfold bind at 1.
  destruct (plotOrSimulate_outcome plan w) as [Hr|[e Hr]];
    destruct (plotOrSimulate plan w) as [[r w'] t]; cbn [fst snd] in *;
    subst r; unfold console, emit, ret;
    destruct (wakeLockFails (env w)); cbn [negb app];
    rewrite ?app_nil_r, <- ?app_assoc; reflexivity.
Qed.

(** ** The connection loop never ends (C5) *)

Lemma waitForEbb_progress fuel : forall w,
  List.length (listTape w) < fuel ->
  match waitForEbb fuel w with
  | (Ok _, w', _) => pendingAnswers w' < pendingAnswers w
  | (Throw _, w', _) => pendingAnswers w' < pendingAnswers w
  | (Pending, _, _) => True
  | (OutOfFuel, _, _) => False
  end.
Proof.
  induction fuel as [|fuel IH]; intros w Hf; [lia|].
  cbn [waitForEbb]. unfold bind at 1, awaitList.
  destruct (listTape w) as [|[l|e] tape] eqn:Ht.
  - exact I.
  - destruct l as [|com l].
    + unfold bind, sleep, emit.
      specialize (IH (set_listTape tape w)).
      destruct (waitForEbb fuel (set_listTape tape w)) as [[r w'] t].
      unfold pendingAnswers in *. cbn in IH, Hf. rewrite Ht.
      cbn [List.length].
      destruct r; try (specialize (IH ltac:(lia))); try lia; exact IH.
    + unfold ret, pendingAnswers. cbn. rewrite Ht. cbn. lia.
  - unfold pendingAnswers. cbn. rewrite Ht. cbn. lia.
Qed.

Section NeverEnds.

Variable path : option string.
Variable yield : option EBB -> M unit.

Hypothesis yield_returns : forall d w,
  exists w' t,
    yield d w = (Ok tt, w', t) /\ pendingAnswers w' = pendingAnswers w.

Lemma opening_progress com w :
  match opening yield com w with
  | (Ok _, w', _) => pendingAnswers w' < pendingAnswers w
  | (Throw _, w', _) => pendingAnswers w' < pendingAnswers w
  | (Pending, _, _) => True
  | (OutOfFuel, _, _) => False
  end.
Proof.
  unfold opening.
  unfold bind at 1, console at 1, emit at 1.
  unfold bind at 1, tryOpen.
  destruct (openTape w) as [|[u|e] tape] eqn:Ht.
  - exact I.
  - unfold bind at 1.
    destruct (yield_returns (Some (mkEBB com)) (set_openTape tape w))
      as (w1 & t1 & -> & Hw1).
    unfold bind at 1, awaitClosed.
    destruct (closes w1) as [|n] eqn:Hn; [exact I|].
    unfold bind at 1.
    destruct (yield_returns None (set_closes n w1)) as (w2 & t2 & -> & Hw2).
    unfold console, emit.
    rewrite Hw2. unfold pendingAnswers in *. cbn in *. rewrite Ht, Hn in *.
    cbn in *. lia.
  - unfold pendingAnswers. cbn. rewrite Ht. cbn. lia.
Qed.

Lemma ebbsTry_progress fuel w :
  pendingAnswers w < fuel ->
  match ebbsTry path yield fuel w with
  | (Ok _, w', _) => pendingAnswers w' < pendingAnswers w
  | (Throw _, w', _) => pendingAnswers w' < pendingAnswers w
  | (Pending, _, _) => True
  | (OutOfFuel, _, _) => False
  end.
Proof.
  intros Hf.
  change (ebbsTry path yield fuel)
    with (bind (match truthy path with
                | Some p => ret p
                | None => waitForEbb fuel
                end) (opening yield)).
  unfold bind.
  destruct (truthy path) as [p|].
  - unfold ret. pose proof (opening_progress p w) as H.
    destruct (opening yield p w) as [[r w'] t].
    destruct r; exact H.
  - pose proof (@waitForEbb_progress fuel w) as Hw.
    destruct (waitForEbb fuel w) as [[[com|e| |] w1] t1].
    + specialize (Hw ltac:(unfold pendingAnswers in Hf; lia)).
      pose proof (opening_progress com w1) as H.
      destruct (opening yield com w1) as [[r w'] t].
      destruct r; try exact H; lia.
    + apply Hw. unfold pendingAnswers in Hf. lia.
    + exact I.
    + apply Hw. unfold pendingAnswers in Hf. lia.
Qed.

Lemma ebbs_never_ends fuel : forall w,
  pendingAnswers w < fuel ->
  fst (fst (ebbs path yield fuel w)) = Pending.
Proof.
  induction fuel as [|fuel IH]; intros w Hf; [lia|].
  cbn [ebbs]. unfold bind at 1, tryCatch at 1.
  pose proof (@ebbsTry_progress (S fuel) w Hf) as H.
  destruct (ebbsTry path yield (S fuel) w) as [[[u|e| |] w1] t1].
  - specialize (IH w1 ltac:(lia)).
    destruct (ebbs path yield fuel w1) as [[r w2] t2]. exact IH.
  - unfold ebbsCatch, bind, console, sleep, emit.
    specialize (IH w1 ltac:(lia)).
    destruct (ebbs path yield fuel w1) as [[r w2] t2]. exact IH.
  - reflexivity.
  - destruct H.
Qed.

End NeverEnds.

Lemma connectBody_run d w :
  connectBody d w
  = (Ok tt, set_ebb d w,
     bcastTrace w (DevMsg (match d with
                           | Some d' => Some (port_path d')
                           | None => None
                           end))).
Proof.
  unfold connectBody, bind, modify, get. rewrite broadcast_run'.
  unfold currentPath. cbn. reflexivity.
Qed.

Lemma connect_never_ends fuel w :
  pendingAnswers w < fuel -> fst (fst (connect fuel w)) = Pending.
Proof.
  apply ebbs_never_ends. intros d w0. rewrite connectBody_run.
  do 2 eexists. split; reflexivity.
Qed.

(** ** Failed attempts, then a connection (C5) *)

Lemma bind_after A B (m m' : M A) (k : A -> M B) w w' t0 :
  m w = after t0 (m' w') -> bind m k w = after t0 (bind m' k w').
Proof.
  intros H. unfold bind. rewrite H.
  destruct (m' w') as [[[a|e| |] w1] t1]; cbn [after]; try reflexivity.
  destruct (k a w1) as [[r w2] t2]. cbn [after]. rewrite app_assoc. reflexivity.
Qed.

Lemma tryCatch_after A (m m' : M A) (h : Err -> M A) w w' t0 :
  m w = after t0 (m' w') -> tryCatch m h w = after t0 (tryCatch m' h w').
Proof.
  intros H. unfold tryCatch. rewrite H.
  destruct (m' w') as [[[a|e| |] w1] t1]; cbn [after]; try reflexivity.
  destruct (h e w1) as [[r w2] t2]. cbn [after]. rewrite app_assoc. reflexivity.
Qed.

Lemma after_after A t0 t1 (run : Outcome A * World * list Action) :
  after t0 (after t1 run) = after (t0 ++ t1) run.
Proof. destruct run as [[r w] t]. cbn. rewrite app_assoc. reflexivity. Qed.

Lemma round_no_candidate f1 f2 w tape :
  listTape w = Resolved [] :: tape ->
  round (S f1) f2 w
  = after [Sleep (inject_Z 5000)] (round f1 f2 (set_listTape tape w)).
Proof.
  intros Ht. unfold round.
  apply bind_after. apply tryCatch_after.
  unfold ebbsTry. apply bind_after. cbn [truthy waitForEbb].
  unfold bind at 1, awaitList. rewrite Ht.
  unfold bind, sleep, emit.
  destruct (waitForEbb f1 (set_listTape tape w)) as [[r w'] t]. reflexivity.
Qed.

Lemma round_list_fails f1 f2 w e tape :
  listTape w = Rejected e :: tape ->
  round (S f1) (S f2) w
  = after [Console (ErrorConnecting (message e)); Console Retrying;
           Sleep (inject_Z 5000)]
          (round (S f2) f2 (set_listTape tape w)).
Proof.
  intros Ht. unfold round at 1.
  unfold bind at 1, tryCatch at 1, ebbsTry at 1.
  unfold bind at 1. cbn [truthy waitForEbb].
  unfold bind at 1, awaitList. rewrite Ht.
  unfold ebbsCatch, bind at 1, console at 1, emit at 1.
  unfold bind at 1, console at 1, emit at 1. unfold sleep, emit.
  cbn [ebbs]. fold (round (S f2) f2).
  destruct (round (S f2) f2 (set_listTape tape w)) as [[r w'] t]. reflexivity.
Qed.

Lemma round_open_fails f1 f2 w com others e ltape otape :
  listTape w = Resolved (com :: others) :: ltape ->
  openTape w = Rejected e :: otape ->
  round (S f1) (S f2) w
  = after [Console (FoundEbb com); Console (ErrorConnecting (message e));
           Console Retrying; Sleep (inject_Z 5000)]
          (round (S f2) f2 (set_openTape otape (set_listTape ltape w))).
Proof.
  intros Hl Ho. unfold round at 1.
  unfold bind at 1, tryCatch at 1, ebbsTry at 1.
  unfold bind at 1. cbn [truthy waitForEbb].
  unfold bind at 1, awaitList. rewrite Hl. unfold ret at 1.
  unfold bind at 1, console at 1, emit at 1.
  unfold bind at 1, tryOpen. cbn [openTape set_listTape]. rewrite Ho.
  unfold ebbsCatch, bind at 1, console at 1, emit at 1.
  unfold bind at 1, console at 1, emit at 1. unfold sleep, emit.
  cbn [ebbs]. fold (round (S f2) f2).
  match goal with
  | |- context [round (S f2) f2 ?W] =>
      change W with (set_openTape otape (set_listTape ltape w));
      destruct (round (S f2) f2 (set_openTape otape (set_listTape ltape w)))
        as [[r w'] t]
  end.
  reflexivity.
Qed.

Lemma round_connects f1 f2 w com others ltape otape :
  listTape w = Resolved (com :: others) :: ltape ->
  openTape w = Resolved tt :: otape ->
  closes w = 0 ->
  round (S f1) f2 w
  = (Pending,
     set_ebb (Some (mkEBB com)) (set_openTape otape (set_listTape ltape w)),
     Console (FoundEbb com) :: bcastTrace w (DevMsg (Some com))).
Proof.
  intros Hl Ho Hc. unfold round.
  unfold bind at 1, tryCatch at 1, ebbsTry at 1.
  unfold bind at 1. cbn [truthy waitForEbb].
  unfold bind at 1, awaitList. rewrite Hl. unfold ret at 1.
  unfold bind at 1, console at 1, emit at 1.
  unfold bind at 1, tryOpen. cbn [openTape set_listTape]. rewrite Ho.
  unfold bind at 1. rewrite connectBody_run.
  unfold bind at 1, awaitClosed. cbn [closes set_ebb set_openTape set_listTape]. rewrite Hc.
  cbn [app port_path]. rewrite app_nil_r. reflexivity.
Qed.

Lemma round_connects_then_loses f1 f2 w com others ltape otape :
  listTape w = Resolved (com :: others) :: ltape ->
  openTape w = Resolved tt :: otape ->
  closes w = 1 ->
  ltape = [] ->
  round (S f1) (S f2) w
  = (Pending,
     set_ebb None
       (set_closes 0
          (set_ebb (Some (mkEBB com))
             (set_openTape otape (set_listTape ltape w)))),
     Console (FoundEbb com) :: bcastTrace w (DevMsg (Some com))
       ++ bcastTrace w (DevMsg None) ++ [Console LostConnection]).
Proof.
  intros Hl Ho Hc ->. unfold round.
  unfold bind at 1, tryCatch at 1, ebbsTry at 1.
  unfold bind at 1. cbn [truthy waitForEbb].
  unfold bind at 1, awaitList. rewrite Hl. unfold ret at 1.
  unfold bind at 1, console at 1, emit at 1.
  unfold bind at 1, tryOpen. cbn [openTape set_listTape]. rewrite Ho.
  unfold bind at 1. rewrite connectBody_run.
  unfold bind at 1, awaitClosed. cbn [closes set_ebb set_openTape set_listTape]. rewrite Hc.
  unfold bind at 1. rewrite connectBody_run.
  unfold console, emit.
  cbn [ebbs]. unfold bind, tryCatch, ebbsTry, bind. cbn [truthy waitForEbb].
  unfold bind, awaitList.
  cbn [listTape set_ebb set_closes set_openTape set_listTape].
  cbn [app port_path]. rewrite ?app_nil_r.
  apply f_equal. cbn [app]. rewrite <- ?app_assoc. reflexivity.
Qed.

Lemma after_nil A (run : Outcome A * World * list Action) : after [] run = run.
Proof. destruct run as [[r w] t]. reflexivity. Qed.

Lemma round_failures com others n w fs : forall f1 f2,
  List.length fs < f1 ->
  List.length fs <= f2 ->
  exists f1' f2',
    0 < f1' /\ f2 <= f2' + List.length fs
    /\ round f1 f2 (failingThenOpening fs com others n w)
       = after (flat_map failureTrace fs)
               (round f1' f2' (failingThenOpening [] com others n w)).
Proof.
  induction fs as [|f fs IH]; intros f1 f2 H1 H2.
  - exists f1, f2. cbn [List.length flat_map] in *.
    rewrite after_nil. repeat split; lia.
  - cbn [List.length] in H1, H2.
    destruct f1 as [|f1]; [lia|].
    destruct f as [|e|com' others' e].
    + erewrite round_no_candidate by reflexivity.
      change (set_listTape _ _) with (failingThenOpening fs com others n w).
      destruct (IH f1 f2) as (f1' & f2' & Hf1 & Hf2 & ->); [lia|lia|].
      rewrite after_after. exists f1', f2'.
      cbn [List.length]. repeat split; try lia.
    + destruct f2 as [|f2]; [lia|].
      erewrite round_list_fails by reflexivity.
      change (set_listTape _ _) with (failingThenOpening fs com others n w).
      destruct (IH (S f2) f2) as (f1' & f2' & Hf1 & Hf2 & ->); [lia|lia|].
      rewrite after_after. exists f1', f2'.
      cbn [List.length]. repeat split; try lia.
    + destruct f2 as [|f2]; [lia|].
      erewrite round_open_fails by reflexivity.
      change (set_openTape _ _) with (failingThenOpening fs com others n w).
      destruct (IH (S f2) f2) as (f1' & f2' & Hf1 & Hf2 & ->); [lia|lia|].
      rewrite after_after. exists f1', f2'.
      cbn [List.length]. repeat split; try lia.
Qed.

(** C5.  The connection loop never ends: whatever finite sequence of
    answers the serial layer gives (listings, open results, lost
    connections), [connect()] neither returns nor throws but is left
    waiting for the next answer.  Each failed attempt is followed by a
    5-second sleep and the next attempt: after an empty listing nothing
    else is done; after a failed listing or a failed open the error is
    logged first.  After any finite sequence of failed attempts, a listing
    with [com] first and a successful open make [ebb] the device at [com]
    and broadcast [dev] with the path [com]; and when that connection is
    lost, [ebb] becomes null and [dev] with a null path is broadcast.
    Every value the generator yields is handled like that: [ebb] is set to
    it and [dev] with its path, or with null, is broadcast. *)
Theorem connection_supervisor :
  (forall fuel w,
     pendingAnswers w < fuel -> fst (fst (connect fuel w)) = Pending)
  /\ (forall d w,
        connectBody d w
        = (Ok tt, set_ebb d w,
           bcastTrace w (DevMsg (match d with
                                 | Some d' => Some (port_path d')
                                 | None => None
                                 end))))
  /\ (forall f, exists t, failureTrace f = t ++ [Sleep (inject_Z 5000)])
  /\ (forall fs com others w fuel,
        List.length fs < fuel ->
        connect fuel (failingThenOpening fs com others 0 w)
        = (Pending, settled (Some (mkEBB com)) w,
           flat_map failureTrace fs
             ++ Console (FoundEbb com) :: bcastTrace w (DevMsg (Some com))))
  /\ (forall fs com others w fuel,
        S (List.length fs) < fuel ->
        connect fuel (failingThenOpening fs com others 1 w)
        = (Pending, settled None w,
           flat_map failureTrace fs
             ++ Console (FoundEbb com) :: bcastTrace w (DevMsg (Some com))
             ++ bcastTrace w (DevMsg None) ++ [Console LostConnection])).
Proof.
  split; [exact connect_never_ends|].
  split; [exact connectBody_run|].
  split.
  { intros [|e|com others e].
    - exists []. reflexivity.
    - exists [Console (ErrorConnecting (message e)); Console Retrying].
      reflexivity.
    - exists [Console (FoundEbb com); Console (ErrorConnecting (message e));
              Console Retrying].
      reflexivity. }
  split.
  - intros fs com others w [|fuel] Hf; [lia|].
    unfold connect. cbn [ebbs]. fold (round (S fuel) fuel).
    destruct (round_failures com others 0 w fs (f1 := S fuel) (f2 := fuel))
      as (f1' & f2' & Hf1 & _ & ->); [lia|lia|].
    destruct f1' as [|f1']; [lia|].
    erewrite round_connects by reflexivity. reflexivity.
  - intros fs com others w [|fuel] Hf; [lia|].
    unfold connect. cbn [ebbs]. fold (round (S fuel) fuel).
    destruct (round_failures com others 1 w fs (f1 := S fuel) (f2 := fuel))
      as (f1' & f2' & Hf1 & Hf2 & ->); [lia|lia|].
    destruct f1' as [|f1']; [lia|].
    destruct f2' as [|f2']; [lia|].
    erewrite round_connects_then_loses by reflexivity. reflexivity.
Qed.

(** An empty listing, then a port that is busy, then a connection. *)
Lemma connection_supervisor_witness :
  connect 3
    (failingThenOpening
       [NoCandidate; OpenFails "/dev/ttyACM0" [] (IoError "busy")]
       "/dev/ttyACM0" [] 0 (desk calm))
  = (Pending, settled (Some (mkEBB "/dev/ttyACM0")) (desk calm),
     [Sleep (inject_Z 5000);
      Console (FoundEbb "/dev/ttyACM0"); Console (ErrorConnecting "busy");
      Console Retrying; Sleep (inject_Z 5000);
      Console (FoundEbb "/dev/ttyACM0");
      Bcast (DevMsg (Some "/dev/ttyACM0"%string));
      WsSend 1 (DevMsg (Some "/dev/ttyACM0"%string)) true;
      WsSend 2 (DevMsg (Some "/dev/ttyACM0"%string)) true]).
Proof.
  apply (proj1 (proj2 (proj2 (proj2 connection_supervisor)))
           [NoCandidate; OpenFails "/dev/ttyACM0" [] (IoError "busy")]
           "/dev/ttyACM0"%string [] (desk calm) 3).
  cbn. lia.
Defined.

(** * Further properties *)

(** ** What a broadcast delivers *)

Lemma deliveredTo_bcastTrace ws w msg :
  deliveredTo ws (bcastTrace w msg) = copies w ws msg.
Proof.
  unfold bcastTrace. cbn [deliveredTo flat_map app].
  apply deliveredTo_deliveries.
Qed.

Lemma received_app w ws l1 l2 :
  received w ws (l1 ++ l2) = received w ws l1 ++ received w ws l2.
Proof. apply flat_map_app. Qed.

Lemma received_once w ws events :
  count_occ Nat.eq_dec (clients w) ws = 1 ->
  (forall msg, sendFails (env w) ws msg = false) ->
  received w ws events = events.
Proof.
  intros Hone Hok. induction events as [|msg events IH]; [reflexivity|].
  unfold received in *. cbn [flat_map]. rewrite IH.
  unfold copies. rewrite Hok, Hone. reflexivity.
Qed.

(** ** A plot does not see an old cancel request *)

Lemma CleanupRun_functional w b r1 b1 t1 r2 b2 t2 :
  CleanupRun w b r1 b1 t1 -> CleanupRun w b r2 b2 t2 ->
  r1 = r2 /\ b1 = b2 /\ t1 = t2.
Proof.
  intros H1 H2. destruct H1; destruct H2; try congruence; repeat split.
Qed.

Lemma DoPlotRun_functional plan w r1 b1 t1 r2 b2 t2 :
  DoPlotRun plan w r1 b1 t1 -> DoPlotRun plan w r2 b2 t2 ->
  r1 = r2 /\ b1 = b2 /\ t1 = t2.
Proof.
  intros H1 H2.
  destruct H1 as
    [ Hen | Hen Hpen | pm Hen Hpen Hinit | pm k e b Hen Hpen Hinit Hloop
    | pm k Hen Hpen Hinit Hloop Hup
    | pm k r b t Hen Hpen Hinit Hloop Hup Hclean
    | pm k r b t Hen Hpen Hinit Hloop Hclean ];
  destruct H2 as
    [ Hen' | Hen' Hpen' | pm' Hen' Hpen' Hinit' | pm' k' e' b' Hen' Hpen' Hinit' Hloop'
    | pm' k' Hen' Hpen' Hinit' Hloop' Hup'
    | pm' k' r' b' t' Hen' Hpen' Hinit' Hloop' Hup' Hclean'
    | pm' k' r' b' t' Hen' Hpen' Hinit' Hloop' Hclean' ];
  try congruence;
  try (assert (pm' = pm) by congruence; subst pm');
  try (assert (k' = k) by congruence; subst k');
  try (destruct (CleanupRun_functional Hclean Hclean') as (-> & -> & ->));
  repeat split; congruence.
Qed.

Lemma CleanupRun_set_cancelRequested w c b r b' t :
  CleanupRun (set_cancelRequested c w) b r b' t -> CleanupRun w b r b' t.
Proof.
  intros H. destruct H as [Hi|Hi Hd|Hi Hd].
  - exact (@IdleFails w b Hi).
  - exact (@DisableFails w b Hi Hd).
  - exact (@CleanedUp w b Hi Hd).
Qed.

(** The runs from [w] with another value of [cancelRequested] are the runs
    from [w], up to the value left in [cancelRequested]. *)
Lemma DoPlotRun_set_cancelRequested plan w c r b t :
  DoPlotRun plan (set_cancelRequested c w) r b t ->
  exists b', DoPlotRun plan w r b' t.
Proof.
  intros H.
  destruct H as
    [ Hen | Hen Hpen | pm Hen Hpen Hinit | pm k e b0 Hen Hpen Hinit Hloop
    | pm k Hen Hpen Hinit Hloop Hup
    | pm k r0 b0 t0 Hen Hpen Hinit Hloop Hup Hclean
    | pm k r0 b0 t0 Hen Hpen Hinit Hloop Hclean ]; eexists.
  - exact (@EnableFails plan w Hen).
  - exact (@NoPenMotion plan w Hen Hpen).
  - exact (@InitPenFails plan w pm Hen Hpen Hinit).
  - exact (@MotionFails plan w pm k e _ Hen Hpen Hinit Hloop).
  - exact (@PenUpFails plan w pm k Hen Hpen Hinit Hloop Hup).
  - exact (@CancelledRun plan w pm k _ _ _ Hen Hpen Hinit Hloop Hup
             (CleanupRun_set_cancelRequested Hclean)).
  - exact (@FinishedRun plan w pm k _ _ _ Hen Hpen Hinit Hloop
             (CleanupRun_set_cancelRequested Hclean)).
Qed.

Lemma doPlot_forgets_flag plan w c :
  fst (fst (doPlot plan (set_cancelRequested c w))) = fst (fst (doPlot plan w))
  /\ snd (doPlot plan (set_cancelRequested c w)) = snd (doPlot plan w).
Proof.
  destruct (ebb w) as [d|] eqn:He.
  - destruct (doPlot_run plan (set_cancelRequested c w) (d := d) He)
      as (r1 & b1 & t1 & -> & H1).
    destruct (doPlot_run plan w He) as (r2 & b2 & t2 & -> & H2).
    cbn [fst snd].
    destruct (DoPlotRun_set_cancelRequested H1) as (b' & H1').
    destruct (DoPlotRun_functional H1' H2) as (-> & _ & ->).
    split; reflexivity.
  - rewrite !doPlot_no_ebb by exact He. split; reflexivity.
Qed.

Lemma simulatePlot_forgets_flag plan w c :
  simulatePlot plan (set_cancelRequested c w) = simulatePlot plan w.
Proof.
  destruct (loopSummary_never (cancelAt w) (motions plan) 0) as (k & b & Hloop).
  rewrite (simulatePlot_run plan w Hloop).
  rewrite (simulatePlot_run plan (set_cancelRequested c w) (k := k) (b := b) Hloop).
  reflexivity.
Qed.

Lemma loopSummary_pos c f m rest i k r b :
  loopSummary c f (m :: rest) i = (k, r, b) -> exists k', k = S k'.
Proof.
  cbn. destruct (f i); [intros [= <- _ _]; eauto|].
  destruct (c i); [intros [= <- _ _]; eauto|].
  destruct (loopSummary c f rest (S i)) as [[k' r'] b'].
  intros [= <- _ _]. eauto.
Qed.

Lemma firstPenMotion_motions plan pm :
  firstPenMotion plan = Some pm -> exists m rest, motions plan = m :: rest.
Proof.
  intros H. destruct (firstPenMotion_first plan H) as (before & rest & -> & _).
  destruct before as [|m before]; cbn; eauto.
Qed.

(** A plot that got as far as its loop has announced motion 0. *)
Lemma bcasts_started w plan pm k r b rest :
  firstPenMotion plan = Some pm ->
  loopSummary (cancelAt w) (failAt w) (motions plan) 0 = (k, r, b) ->
  bcasts (prologue w pm ++ iterTraces (doIter w) (motions plan) 0 k ++ rest)
  <> [].
Proof.
  intros Hpen Hloop.
  pose proof (loopSummary_le _ _ _ _ Hloop) as Hk.
  destruct (firstPenMotion_motions plan Hpen) as (m & ms & Hms).
  rewrite Hms in Hloop. destruct (loopSummary_pos _ _ _ _ _ Hloop) as (k' & ->).
  unfold prologue. autorewrite with proj.
  rewrite bcasts_doIters by exact Hk. cbn. discriminate.
Qed.

(** The runs of [doPlot] from a state in which a cancel request is pending:
    either nothing was broadcast and the request is still pending, or
    something was and the run is a run from the state without the
    request. *)
Lemma DoPlotRun_after_cancel plan w r b t :
  DoPlotRun plan (set_cancelRequested true w) r b t ->
  (bcasts t = [] /\ b = true) \/ (bcasts t <> [] /\ DoPlotRun plan w r b t).
Proof.
  intros H.
  destruct H as
    [ Hen | Hen Hpen | pm Hen Hpen Hinit | pm k e b0 Hen Hpen Hinit Hloop
    | pm k Hen Hpen Hinit Hloop Hup
    | pm k r0 b0 t0 Hen Hpen Hinit Hloop Hup Hclean
    | pm k r0 b0 t0 Hen Hpen Hinit Hloop Hclean ].
  - left. split; [unfold prologue; autorewrite with proj|]; reflexivity.
  - left. split; [unfold prologue; autorewrite with proj|]; reflexivity.
  - left. split; [unfold prologue; autorewrite with proj|]; reflexivity.
  - right. split.
    + rewrite <- (app_nil_r (iterTraces _ _ _ _)).
      exact (@bcasts_started w plan pm k _ _ [] Hpen Hloop).
    + exact (@MotionFails plan w pm k e b0 Hen Hpen Hinit Hloop).
  - right. split.
    + exact (@bcasts_started w plan pm k _ _ _ Hpen Hloop).
    + exact (@PenUpFails plan w pm k Hen Hpen Hinit Hloop Hup).
  - right. split.
    + exact (@bcasts_started w plan pm k _ _ _ Hpen Hloop).
    + exact (@CancelledRun plan w pm k _ _ _ Hen Hpen Hinit Hloop Hup
               (CleanupRun_set_cancelRequested Hclean)).
  - right. split.
    + exact (@bcasts_started w plan pm k _ _ _ Hpen Hloop).
    + exact (@FinishedRun plan w pm k _ _ _ Hen Hpen Hinit Hloop
               (CleanupRun_set_cancelRequested Hclean)).
Qed.

(** X2.  A cancel request served before a plot starts does not reach that
    plot: the plot ends the same way and does the same things as without
    the request, because both plot functions clear [cancelRequested] before
    their first motion.  A simulation also leaves the same state.  So does
    [doPlot] whenever it announces a motion; but when [doPlot] throws before
    it announces any (no device, no pen motion, or a failure while the
    motors are enabled or the pen is set), it has not cleared the flag, and
    the request is still pending afterwards. *)
Theorem cancel_before_plot_is_forgotten plan w :
  snd (fst (postCancel w)) = set_cancelRequested true w
  /\ fst (fst (doPlot plan (set_cancelRequested true w)))
     = fst (fst (doPlot plan w))
  /\ snd (doPlot plan (set_cancelRequested true w)) = snd (doPlot plan w)
  /\ (bcasts (snd (doPlot plan w)) <> [] ->
      snd (fst (doPlot plan (set_cancelRequested true w)))
      = snd (fst (doPlot plan w)))
  /\ (bcasts (snd (doPlot plan w)) = [] ->
      cancelRequested (snd (fst (doPlot plan (set_cancelRequested true w))))
      = true)
  /\ simulatePlot plan (set_cancelRequested true w) = simulatePlot plan w.
Proof.
  split; [reflexivity|].
  destruct (doPlot_forgets_flag plan w true) as [Hr Ht].
  split; [exact Hr|]. split; [exact Ht|].
  split; [|split; [|apply simulatePlot_forgets_flag]].
  - rewrite <- Ht. clear Hr Ht.
    destruct (ebb w) as [d|] eqn:He.
    + destruct (doPlot_run plan (set_cancelRequested true w) (d := d) He)
        as (r1 & b1 & t1 & -> & H1).
      destruct (doPlot_run plan w He) as (r2 & b2 & t2 & -> & H2).
      cbn [fst snd]. intros Hb.
      destruct (DoPlotRun_after_cancel H1) as [[Hnil _]|[_ H1']];
        [contradiction|].
      destruct (DoPlotRun_functional H1' H2) as (_ & -> & _). reflexivity.
    + rewrite !doPlot_no_ebb by exact He. cbn [snd bcasts flat_map].
      intros Hb. contradiction Hb. reflexivity.
  - rewrite <- Ht. clear Hr Ht.
    destruct (ebb w) as [d|] eqn:He.
    + destruct (doPlot_run plan (set_cancelRequested true w) (d := d) He)
        as (r1 & b1 & t1 & -> & H1).
      cbn [fst snd]. intros Hb.
      destruct (DoPlotRun_after_cancel H1) as [[_ ->]|[Hne _]];
        [reflexivity|contradiction].
    + rewrite !doPlot_no_ebb by exact He. reflexivity.
Qed.

(** At the bench, with a cancel request pending: a plan without a pen
    motion leaves the request pending; a plan that is plotted leaves the
    state it would have left without the request. *)
Lemma cancel_before_plot_is_forgotten_witness :
  cancelRequested
    (snd (fst (doPlot planStrokeOnly (set_cancelRequested true (bench calm)))))
  = true
  /\ snd (fst (doPlot planPenStroke (set_cancelRequested true (bench calm))))
     = snd (fst (doPlot planPenStroke (bench calm))).
Proof.
  split.
  - apply (proj1 (proj2 (proj2 (proj2 (proj2
             (cancel_before_plot_is_forgotten planStrokeOnly (bench calm))))))).
    reflexivity.
  - apply (proj1 (proj2 (proj2 (proj2
             (cancel_before_plot_is_forgotten planPenStroke (bench calm)))))).
    discriminate.
Defined.

(** ** The device calls of the motion loop *)

Lemma devCalls_doIters_returned w c ms : forall i k b,
  loopSummary c (failAt w) ms i = (k, Ok tt, b) ->
  devCalls (iterTraces (doIter w) ms i k)
  = succeeded (map ExecuteMotion (firstn k ms)).
Proof.
  induction ms as [|m rest IH]; intros i k b H; cbn in H.
  - inversion H. reflexivity.
  - destruct (failAt w i) eqn:Hf; [discriminate H|].
    destruct (c i).
    + inversion H; subst. cbn [iterTraces firstn map succeeded].
      unfold doIter. autorewrite with proj.
      unfold failAt in Hf. rewrite Hf. reflexivity.
    + destruct (loopSummary c (failAt w) rest (S i)) as [[k' r'] b'] eqn:E.
      inversion H; subst. cbn [iterTraces firstn map succeeded].
      unfold doIter at 1. autorewrite with proj.
      unfold failAt in Hf. rewrite Hf. cbn [negb app].
      rewrite (IH _ _ _ E). reflexivity.
Qed.

Lemma devCalls_doIters_thrown w c ms : forall i k e b,
  loopSummary c (failAt w) ms i = (k, Throw e, b) ->
  exists k' m,
    k = S k' /\ e = DeviceError (ExecuteMotion m)
    /\ devCalls (iterTraces (doIter w) ms i k)
       = succeeded (map ExecuteMotion (firstn k' ms))
           ++ [(ExecuteMotion m, false)].
Proof.
  induction ms as [|m rest IH]; intros i k e b H; cbn in H.
  - discriminate H.
  - destruct (failAt w i) eqn:Hf.
    + inversion H; subst. exists 0, m. repeat split.
      cbn [iterTraces firstn map succeeded app].
      unfold doIter. autorewrite with proj.
      unfold failAt in Hf. rewrite Hf. reflexivity.
    + destruct (c i); [discriminate H|].
      destruct (loopSummary c (failAt w) rest (S i)) as [[k' r'] b'] eqn:E.
      inversion H; subst.
      destruct (IH _ _ _ _ E) as (k'' & m' & Hk & -> & Hcalls).
      exists (S k''), m'. split; [f_equal; exact Hk|]. split; [reflexivity|].
      cbn [iterTraces firstn map succeeded].
      unfold doIter at 1. autorewrite with proj.
      unfold failAt in Hf. rewrite Hf. cbn [negb app].
      rewrite Hcalls. reflexivity.
Qed.

Lemma succeeded_app ops1 ops2 :
  succeeded (ops1 ++ ops2) = succeeded ops1 ++ succeeded ops2.
Proof. apply map_app. Qed.

Lemma CleanupRun_devCalls w b r b' t :
  CleanupRun w b r b' t -> devCalls t = cleanupCallsOf r.
Proof.
  intros H. destruct H as [Hi|Hi Hd|Hi Hd];
    autorewrite with proj; rewrite ?Hi, ?Hd; reflexivity.
Qed.

Lemma devCalls_prologue w pm :
  devCalls (prologue w pm)
  = [(EnableMotors 2, negb (opFails (env w) AwEnable));
     (SetPenHeight (initialPos pm) 1000 (Some 1000%Z),
      negb (opFails (env w) AwInitPen))].
Proof. unfold prologue. autorewrite with proj. reflexivity. Qed.

(** ** A failed device call ends the plot *)

(** X3.  [doPlot] ends in one of three ways: it returns, it throws a
    TypeError (no device, or no pen motion in the plan), or it throws the
    failure of a device operation.  In the last case the failed operation is
    the last device call of the plot and every call before it succeeded; in
    the other two cases every device call of the plot succeeded.  So no
    failure of the device is swallowed and no device call follows a failed
    one. *)
Theorem device_failure_ends_the_plot plan w :
  (fst (fst (doPlot plan w)) = Ok tt
   \/ fst (fst (doPlot plan w)) = Throw TypeError
   \/ exists op, fst (fst (doPlot plan w)) = Throw (DeviceError op))
  /\ (forall op,
        fst (fst (doPlot plan w)) = Throw (DeviceError op) ->
        exists ops,
          devCalls (snd (doPlot plan w)) = succeeded ops ++ [(op, false)])
  /\ (fst (fst (doPlot plan w)) = Ok tt
      \/ fst (fst (doPlot plan w)) = Throw TypeError ->
      exists ops, devCalls (snd (doPlot plan w)) = succeeded ops).
Proof.
  destruct (ebb w) as [d|] eqn:He.
  2:{ rewrite doPlot_no_ebb by exact He. cbn [fst snd].
      split; [right; left; reflexivity|]. split.
      - intros op H. discriminate H.
      - intros _. exists []. reflexivity. }
  destruct (doPlot_run plan w He) as (r & b & t & -> & Hrun). cbn [fst snd].
  destruct Hrun as
    [ Hen | Hen Hpen | pm Hen Hpen Hinit | pm k e b Hen Hpen Hinit Hloop
    | pm k Hen Hpen Hinit Hloop Hup
    | pm k r b t Hen Hpen Hinit Hloop Hup Hclean
    | pm k r b t Hen Hpen Hinit Hloop Hclean ].
  - split; [right; right; eexists; reflexivity|]. split.
    + intros op H. inversion H; subst. exists [].
      autorewrite with proj. rewrite Hen. reflexivity.
    + intros [H|H]; discriminate H.
  - split; [right; left; reflexivity|]. split.
    + intros op H. discriminate H.
    + intros _. exists [EnableMotors 2].
      autorewrite with proj. rewrite Hen. reflexivity.
  - split; [right; right; eexists; reflexivity|]. split.
    + intros op H. inversion H; subst. exists [EnableMotors 2].
      rewrite devCalls_prologue, Hen, Hinit. reflexivity.
    + intros [H|H]; discriminate H.
  - destruct (devCalls_doIters_thrown _ _ _ _ Hloop)
      as (k' & m & -> & -> & Hcalls).
    split; [right; right; eexists; reflexivity|]. split.
    + intros op H. inversion H; subst.
      exists ([EnableMotors 2;
               SetPenHeight (initialPos pm) 1000 (Some 1000%Z)]
                ++ map ExecuteMotion (firstn k' (motions plan))).
      rewrite devCalls_app, devCalls_prologue, Hen, Hinit, Hcalls.
      rewrite succeeded_app, <- app_assoc. reflexivity.
    + intros [H|H]; discriminate H.
  - split; [right; right; eexists; reflexivity|]. split.
    + intros op H. inversion H; subst.
      exists ([EnableMotors 2;
               SetPenHeight (initialPos pm) 1000 (Some 1000%Z)]
                ++ map ExecuteMotion (firstn k (motions plan))).
      rewrite !devCalls_app, devCalls_prologue, Hen, Hinit.
      rewrite (devCalls_doIters_returned _ _ _ _ Hloop).
      autorewrite with proj. rewrite Hup.
      rewrite succeeded_app, <- app_assoc. reflexivity.
    + intros [H|H]; discriminate H.
  - pose proof (CleanupRun_devCalls Hclean) as Hcc.
    set (ops := [EnableMotors 2;
                 SetPenHeight (initialPos pm) 1000 (Some 1000%Z)]
                  ++ map ExecuteMotion (firstn k (motions plan))
                  ++ [SetPenHeight (penPctToPos (env w) 0) 1000 None]).
    assert (Hcalls :
      devCalls (prologue w pm ++ iterTraces (doIter w) (motions plan) 0 k
                  ++ devTrace w AwPenUp
                       (SetPenHeight (penPctToPos (env w) 0) 1000 None)
                  ++ bcastTrace w Cancelled ++ t)
      = succeeded ops ++ cleanupCallsOf r).
    { unfold ops. rewrite !devCalls_app, devCalls_prologue, Hen, Hinit.
      rewrite (devCalls_doIters_returned _ _ _ _ Hloop).
      autorewrite with proj. rewrite Hup, Hcc.
      rewrite !succeeded_app, <- !app_assoc. reflexivity. }
    rewrite Hcalls. clear Hcalls.
    destruct Hclean as [Hi|Hi Hd|Hi Hd]; cbn [cleanupCallsOf].
    + split; [right; right; eexists; reflexivity|]. split.
      * intros op H. inversion H; subst. exists ops. reflexivity.
      * intros [H|H]; discriminate H.
    + split; [right; right; eexists; reflexivity|]. split.
      * intros op H. inversion H; subst.
        exists (ops ++ [WaitUntilMotorsIdle]).
        rewrite succeeded_app, <- app_assoc. reflexivity.
      * intros [H|H]; discriminate H.
    + split; [left; reflexivity|]. split.
      * intros op H. discriminate H.
      * intros _. exists (ops ++ [WaitUntilMotorsIdle; DisableMotors]).
        rewrite succeeded_app. reflexivity.
  - pose proof (CleanupRun_devCalls Hclean) as Hcc.
    set (ops := [EnableMotors 2;
                 SetPenHeight (initialPos pm) 1000 (Some 1000%Z)]
                  ++ map ExecuteMotion (firstn k (motions plan))).
    assert (Hcalls :
      devCalls (prologue w pm ++ iterTraces (doIter w) (motions plan) 0 k
                  ++ bcastTrace w Finished ++ t)
      = succeeded ops ++ cleanupCallsOf r).
    { unfold ops. rewrite !devCalls_app, devCalls_prologue, Hen, Hinit.
      rewrite (devCalls_doIters_returned _ _ _ _ Hloop).
      autorewrite with proj. rewrite Hcc.
      rewrite !succeeded_app, <- !app_assoc. reflexivity. }
    rewrite Hcalls. clear Hcalls.
    destruct Hclean as [Hi|Hi Hd|Hi Hd]; cbn [cleanupCallsOf].
    + split; [right; right; eexists; reflexivity|]. split.
      * intros op H. inversion H; subst. exists ops. reflexivity.
      * intros [H|H]; discriminate H.
    + split; [right; right; eexists; reflexivity|]. split.
      * intros op H. inversion H; subst.
        exists (ops ++ [WaitUntilMotorsIdle]).
        rewrite succeeded_app, <- app_assoc. reflexivity.
      * intros [H|H]; discriminate H.
    + split; [left; reflexivity|]. split.
      * intros op H. discriminate H.
      * intros _. exists (ops ++ [WaitUntilMotorsIdle; DisableMotors]).
        rewrite succeeded_app. reflexivity.
Qed.

(** When [executeMotion] fails for motion 0 on the bench, it is the last of
    three device calls. *)
Lemma device_failure_ends_the_plot_witness :
  exists ops,
    devCalls (snd (doPlot planPenStroke (bench failFirst)))
    = succeeded ops ++ [(ExecuteMotion penDown, false)].
Proof.
  apply (proj1 (proj2 (device_failure_ends_the_plot planPenStroke
                         (bench failFirst)))).
  reflexivity.
Defined.

(** ** The device calls of a plot that returns *)

(** X4.  When [doPlot] returns, the plan has a pen motion and the device was
    called, with success each time, exactly as follows.  After [Finished]:
    [enableMotors(2)], [setPenHeight] to the initial position of the first
    pen motion, [executeMotion] for every motion of the plan in plan order,
    [waitUntilMotorsIdle], [disableMotors].  After [Cancelled]: the same with
    only the first [k] motions, those announced, and with
    [setPenHeight(penPctToPos(0), 1000)] before the cleanup. *)
Theorem device_script_of_a_returning_plot plan w :
  fst (fst (doPlot plan w)) = Ok tt ->
  exists pm k,
    firstPenMotion plan = Some pm
    /\ k <= List.length (motions plan)
    /\ ((bcasts (snd (doPlot plan w)) = map Progress (seq 0 k) ++ [Finished]
         /\ k = List.length (motions plan)
         /\ devCalls (snd (doPlot plan w))
            = succeeded
                ([EnableMotors 2;
                  SetPenHeight (initialPos pm) 1000 (Some 1000%Z)]
                   ++ map ExecuteMotion (motions plan)
                   ++ [WaitUntilMotorsIdle; DisableMotors]))
        \/ (bcasts (snd (doPlot plan w)) = map Progress (seq 0 k) ++ [Cancelled]
            /\ 0 < k
            /\ devCalls (snd (doPlot plan w))
               = succeeded
                   ([EnableMotors 2;
                     SetPenHeight (initialPos pm) 1000 (Some 1000%Z)]
                      ++ map ExecuteMotion (firstn k (motions plan))
                      ++ [SetPenHeight (penPctToPos (env w) 0) 1000 None;
                          WaitUntilMotorsIdle; DisableMotors]))).
Proof.
  intros Hok.
  destruct (ebb w) as [d|] eqn:He.
  2:{ rewrite doPlot_no_ebb in Hok by exact He. discriminate Hok. }
  destruct (doPlot_run plan w He) as (r & b & t & Hrun & Hshape).
  rewrite Hrun in Hok |- *. cbn [fst snd] in Hok |- *. subst r.
  inversion Hshape as
    [ | | | |
    | pm k r' b' t' Hen Hpen Hinit Hloop Hup Hclean
    | pm k r' b' t' Hen Hpen Hinit Hloop Hclean ]; subst.
  - pose proof (loopSummary_le _ _ _ _ Hloop) as Hk.
    destruct (loopSummary_broke _ _ _ _ Hloop) as (k' & Hk' & _).
    destruct (CleanupRun_quiet Hclean) as (Hb & _).
    exists pm, k. split; [exact Hpen|]. split; [exact Hk|]. right.
    split; [|split; [lia|]].
    + unfold prologue. autorewrite with proj.
      rewrite bcasts_doIters by exact Hk. rewrite Hb. reflexivity.
    + rewrite !devCalls_app, devCalls_prologue, Hen, Hinit.
      rewrite (devCalls_doIters_returned _ _ _ _ Hloop).
      autorewrite with proj. rewrite Hup, (CleanupRun_devCalls Hclean).
      unfold succeeded. rewrite ?map_app, <- ?app_assoc. reflexivity.
  - destruct (loopSummary_completed _ _ _ _ Hloop) as (-> & _).
    destruct (CleanupRun_quiet Hclean) as (Hb & _).
    exists pm, (List.length (motions plan)).
    split; [exact Hpen|]. split; [lia|]. left.
    split; [|split; [reflexivity|]].
    + unfold prologue. autorewrite with proj.
      rewrite bcasts_doIters by lia. rewrite Hb. reflexivity.
    + rewrite !devCalls_app, devCalls_prologue, Hen, Hinit.
      rewrite (devCalls_doIters_returned _ _ _ _ Hloop).
      rewrite firstn_all.
      autorewrite with proj. rewrite (CleanupRun_devCalls Hclean).
      unfold succeeded. rewrite ?map_app, <- ?app_assoc. reflexivity.
Qed.

(** The plot on the bench that is cancelled during motion 0 returns. *)
Lemma device_script_of_a_returning_plot_witness :
  devCalls (snd (doPlot planPenStroke (bench cancelFirst)))
  = succeeded [EnableMotors 2; SetPenHeight 27831 1000 (Some 1000%Z);
               ExecuteMotion penDown; SetPenHeight 27831 1000 None;
               WaitUntilMotorsIdle; DisableMotors].
Proof.
  destruct (device_script_of_a_returning_plot planPenStroke (bench cancelFirst))
    as (pm & k & Hpen & Hk & [(Hb & _ & Hcalls)|(Hb & Hpos & Hcalls)]).
  - reflexivity.
  - reflexivity.
  - reflexivity.
Defined.

(** ** Which cancel requests a plot sees *)

Lemma loopSummary_ext c c' f f' ms :
  (forall i, c' i = c i) -> (forall i, f' i = f i) ->
  forall i, loopSummary c' f' ms i = loopSummary c f ms i.
Proof.
  intros Hc Hf. induction ms as [|m rest IH]; intros i; [reflexivity|].
  cbn. rewrite Hc, Hf, IH. reflexivity.
Qed.

Lemma CleanupRun_agree w w' b1 r1 b1' t1 b2 r2 b2' t2 :
  opFails (env w') = opFails (env w) ->
  CleanupRun w b1 r1 b1' t1 -> CleanupRun w' b2 r2 b2' t2 ->
  r2 = r1.
Proof.
  intros Hf H1 H2. destruct H1; destruct H2; rewrite Hf in *; congruence.
Qed.

Lemma DoPlotRun_agree plan w w' r1 b1 t1 r2 b2 t2 :
  opFails (env w') = opFails (env w) ->
  penPctToPos (env w') 0%Z = penPctToPos (env w) 0%Z ->
  (forall i, cancelAt w' i = cancelAt w i) ->
  DoPlotRun plan w r1 b1 t1 -> DoPlotRun plan w' r2 b2 t2 ->
  r2 = r1 /\ bcasts t2 = bcasts t1 /\ devCalls t2 = devCalls t1.
Proof.
  intros Hf Hup0 Hc H1 H2.
  assert (E : loopSummary (cancelAt w') (failAt w') (motions plan) 0
              = loopSummary (cancelAt w) (failAt w) (motions plan) 0).
  { apply loopSummary_ext; [exact Hc|].
    intros i. unfold failAt. rewrite Hf. reflexivity. }
  destruct H1 as
    [ Hen | Hen Hpen | pm Hen Hpen Hinit | pm k e b Hen Hpen Hinit Hloop
    | pm k Hen Hpen Hinit Hloop Hup
    | pm k r b t Hen Hpen Hinit Hloop Hup Hclean
    | pm k r b t Hen Hpen Hinit Hloop Hclean ];
  destruct H2 as
    [ Hen' | Hen' Hpen' | pm' Hen' Hpen' Hinit' | pm' k' e' b' Hen' Hpen' Hinit' Hloop'
    | pm' k' Hen' Hpen' Hinit' Hloop' Hup'
    | pm' k' r' b' t' Hen' Hpen' Hinit' Hloop' Hup' Hclean'
    | pm' k' r' b' t' Hen' Hpen' Hinit' Hloop' Hclean' ];
  try congruence;
  try (rewrite Hf in *; congruence);
  try (pose proof Hloop' as Hl; rewrite E in Hl; congruence);
  try (assert (pm' = pm) by congruence; subst pm');
  try (assert (Hkk : (k', @Throw unit e', b') = (k, Throw e, b))
         by (rewrite <- Hloop, <- Hloop', E; reflexivity);
       inversion Hkk; subst k' e' b'; clear Hkk);
  try (assert (k' = k)
         by (pose proof Hloop' as Hl; rewrite E in Hl; congruence);
       subst k');
  try (pose proof (CleanupRun_agree Hf Hclean Hclean'); subst r';
       rewrite !devCalls_app, !bcasts_app,
         (CleanupRun_devCalls Hclean), (CleanupRun_devCalls Hclean'),
         (proj1 (CleanupRun_quiet Hclean)), (proj1 (CleanupRun_quiet Hclean')));
  rewrite ?devCalls_app, ?bcasts_app, ?devCalls_prologue;
  unfold prologue; autorewrite with proj;
  rewrite ?Hup0, ?Hf;
  try rewrite !bcasts_doIters by (eapply loopSummary_le; eassumption);
  try rewrite (devCalls_doIters_returned _ _ _ _ Hloop);
  try rewrite (devCalls_doIters_returned _ _ _ _ Hloop');
  try (destruct (devCalls_doIters_thrown _ _ _ _ Hloop)
         as (k1 & m1 & Hk1 & He1 & ->);
       destruct (devCalls_doIters_thrown _ _ _ _ Hloop')
         as (k2 & m2 & Hk2 & He2 & ->);
       assert (k2 = k1) by congruence; assert (m2 = m1) by congruence;
       subst k2 m2);
  repeat split; reflexivity.
Qed.

(** X5.  The outcome, the events and the device calls of [doPlot] depend on
    cancel requests only through those that arrive while a motion is
    executed.  Two runs with the same device behaviour and the same requests
    during motions agree on all three, whatever [cancelRequested] was at the
    start and whatever requests arrive while the motors are enabled, the pen
    is set or raised, or the cleanup runs.  In particular a request that
    arrives before the first motion is lost. *)
Theorem plot_sees_cancel_only_during_motions plan w w' :
  (ebb w' = None <-> ebb w = None) ->
  opFails (env w') = opFails (env w) ->
  penPctToPos (env w') 0%Z = penPctToPos (env w) 0%Z ->
  (forall i, cancelAt w' i = cancelAt w i) ->
  fst (fst (doPlot plan w')) = fst (fst (doPlot plan w))
  /\ bcasts (snd (doPlot plan w')) = bcasts (snd (doPlot plan w))
  /\ devCalls (snd (doPlot plan w')) = devCalls (snd (doPlot plan w)).
Proof.
  intros Hebb Hf Hup Hc.
  destruct (ebb w) as [d|] eqn:He; destruct (ebb w') as [d'|] eqn:He'.
  - destruct (doPlot_run plan w He) as (r1 & b1 & t1 & -> & H1).
    destruct (doPlot_run plan w' He') as (r2 & b2 & t2 & -> & H2).
    cbn [fst snd]. exact (DoPlotRun_agree Hf Hup Hc H1 H2).
  - destruct Hebb as [Hebb _]. specialize (Hebb eq_refl). discriminate Hebb.
  - destruct Hebb as [_ Hebb]. specialize (Hebb eq_refl). discriminate Hebb.
  - rewrite !doPlot_no_ebb by assumption. repeat split.
Qed.

(** Requests during [enableMotors] and the first [setPenHeight], and a flag
    already set, against a calm run: the whole plan is plotted. *)
Lemma plot_sees_cancel_only_during_motions_witness :
  bcasts (snd (doPlot planPenStroke (set_cancelRequested true (bench cancelEarly))))
  = [Progress 0; Progress 1; Finished].
Proof.
  rewrite (proj1 (proj2 (plot_sees_cancel_only_during_motions planPenStroke
                           (bench calm)
                           (set_cancelRequested true (bench cancelEarly))
                           (conj (fun H => H) (fun H => H))
                           eq_refl eq_refl (fun i => eq_refl)))).
  reflexivity.
Defined.

(** ** One plot after another *)

Lemma doPlot_world plan w :
  exists b, snd (fst (doPlot plan w)) = set_cancelRequested b w.
Proof.
  destruct (ebb w) as [d|] eqn:He.
  - destruct (doPlot_run plan w He) as (r & b & t & -> & _).
    exists b. reflexivity.
  - rewrite doPlot_no_ebb by exact He. exists (cancelRequested w).
    cbn [fst snd]. symmetry. apply set_cancelRequested_same.
Qed.

(** X6.  A plot changes nothing of the server state but [cancelRequested]:
    not the device handle, not the list of clients.  A [doPlot] that
    returned leaves [cancelRequested] set exactly when a cancel request
    arrived during its cleanup; a simulation always leaves it cleared.
    Whatever the first plot leaves, the plot after it has the outcome and
    the trace it would have had without the first, in all four orders:
    hardware after hardware, simulation after hardware, hardware after
    simulation, simulation after simulation. *)
Theorem plots_do_not_disturb_each_other plan1 plan2 w :
  (ebb (snd (fst (doPlot plan1 w))) = ebb w
   /\ clients (snd (fst (doPlot plan1 w))) = clients w)
  /\ (fst (fst (doPlot plan1 w)) = Ok tt ->
      cancelRequested (snd (fst (doPlot plan1 w)))
      = cancelDuring (env w) AwIdle || cancelDuring (env w) AwDisable)
  /\ snd (fst (simulatePlot plan1 w)) = set_cancelRequested false w
  /\ (fst (fst (doPlot plan2 (snd (fst (doPlot plan1 w)))))
      = fst (fst (doPlot plan2 w))
      /\ snd (doPlot plan2 (snd (fst (doPlot plan1 w)))) = snd (doPlot plan2 w))
  /\ simulatePlot plan2 (snd (fst (doPlot plan1 w))) = simulatePlot plan2 w
  /\ (fst (fst (doPlot plan2 (snd (fst (simulatePlot plan1 w)))))
      = fst (fst (doPlot plan2 w))
      /\ snd (doPlot plan2 (snd (fst (simulatePlot plan1 w))))
         = snd (doPlot plan2 w))
  /\ simulatePlot plan2 (snd (fst (simulatePlot plan1 w)))
     = simulatePlot plan2 w.
Proof.
  assert (Hsim : snd (fst (simulatePlot plan1 w)) = set_cancelRequested false w).
  { destruct (loopSummary_never (cancelAt w) (motions plan1) 0)
      as (k & b & Hloop).
    rewrite (simulatePlot_run _ _ Hloop). reflexivity. }
  destruct (doPlot_world plan1 w) as (b & Hw).
  split; [rewrite Hw; split; reflexivity|].
  split.
  { intros Hok.
    destruct (ebb w) as [d|] eqn:He.
    2:{ rewrite doPlot_no_ebb in Hok by exact He. discriminate Hok. }
    destruct (doPlot_run plan1 w He) as (r & b' & t & Hrun & Hshape).
    rewrite Hrun in Hok |- *. cbn [fst snd] in Hok |- *. subst r.
    inversion Hshape as
      [ | | | |
      | pm k r' b'' t' Hen Hpen Hinit Hloop Hup Hclean
      | pm k r' b'' t' Hen Hpen Hinit Hloop Hclean ]; subst;
      inversion Hclean; subst; reflexivity. }
  split; [exact Hsim|].
  rewrite Hw, Hsim.
  split; [apply doPlot_forgets_flag|].
  split; [apply simulatePlot_forgets_flag|].
  split; [apply doPlot_forgets_flag|].
  apply simulatePlot_forgets_flag.
Qed.

(** A plot that is cancelled during motion 0 returns; nothing arrives during
    its cleanup. *)
Lemma plots_do_not_disturb_each_other_witness :
  cancelRequested (snd (fst (doPlot planPenStroke (bench cancelFirst)))) = false.
Proof.
  rewrite (proj1 (proj2 (plots_do_not_disturb_each_other
                           planPenStroke planPenStroke (bench cancelFirst)))).
  - reflexivity.
  - reflexivity.
Defined.

(** ** A plot request with and without a device *)

Lemma postPlot_run plan w :
  postPlot (Resolved plan) w
  = (fst (fst (plotOrSimulate plan w)),
     snd (fst (plotOrSimulate plan w)),
     [Console ReceivedPlan;
      Console (match ebb w with Some _ => BeginningPlot | None => SimulatingPlot end);
      Respond 200]
     ++ (if wakeLockFails (env w)
         then [WakeAcquire false; Console NoWakeLock]
         else [WakeAcquire true])
     ++ snd (plotOrSimulate plan w)
     ++ (match fst (fst (plotOrSimulate plan w)) with
         | Ok _ => [Console PlotTook]
         | _ => []
         end)
     ++ (if wakeLockFails (env w) then [] else [WakeRelease])).
Proof.
  unfold postPlot.
  unfold bind at 1, ret at 1.
  unfold bind at 1, console at 1, emit at 1.
  unfold bind at 1, get at 1.
  unfold bind at 1, console at 1, emit at 1.
  unfold bind at 1, emit at 1.
  unfold bind at 1. rewrite acquireWakeLock_run.
  unfold tryFinally. unfold bind at 1.
  destruct (plotOrSimulate_outcome plan w) as [Hr|[e Hr]];
    destruct (plotOrSimulate plan w) as [[r w'] t]; cbn [fst snd] in *;
    subst r; unfold console, emit, ret;
    destruct (wakeLockFails (env w)); cbn [negb app];
    rewrite ?app_nil_r, <- ?app_assoc; reflexivity.
Qed.

Lemma plotOrSimulate_route plan w :
  plotOrSimulate plan w
  = match ebb w with
    | Some _ => doPlot plan w
    | None => simulatePlot plan w
    end.
Proof.
  unfold plotOrSimulate, bind, get.
  destruct (ebb w).
  - destruct (doPlot plan w) as [[[] w'] t]; reflexivity.
  - destruct (simulatePlot plan w) as [[[] w'] t]; reflexivity.
Qed.

Lemma postPlot_projections plan w :
  bcasts (snd (postPlot (Resolved plan) w)) = bcasts (snd (plotOrSimulate plan w))
  /\ devCalls (snd (postPlot (Resolved plan) w))
     = devCalls (snd (plotOrSimulate plan w))
  /\ sleeps (snd (postPlot (Resolved plan) w))
     = sleeps (snd (plotOrSimulate plan w)).
Proof.
  rewrite postPlot_run. cbn [snd].
  rewrite !bcasts_app, !devCalls_app, !sleeps_app.
  destruct (fst (fst (plotOrSimulate plan w))), (wakeLockFails (env w));
    cbn; rewrite ?app_nil_r; repeat split; reflexivity.
Qed.

Lemma sleeps_doPlot plan w : sleeps (snd (doPlot plan w)) = [].
Proof.
  destruct (ebb w) as [d|] eqn:He.
  - destruct (doPlot_run plan w He) as (r & b & t & -> & Hrun).
    cbn [snd]. destruct Hrun;
      try (match goal with
           | H : CleanupRun _ _ _ _ _ |- _ =>
               destruct (CleanupRun_quiet H) as (_ & _ & _ & Hs & _)
           end);
      unfold prologue; autorewrite with proj; rewrite ?Hs; reflexivity.
  - rewrite doPlot_no_ebb by exact He. reflexivity.
Qed.

Lemma devCalls_simulatePlot plan w : devCalls (snd (simulatePlot plan w)) = [].
Proof.
  destruct (loopSummary_never (cancelAt w) (motions plan) 0) as (k & b & Hloop).
  rewrite (simulatePlot_run plan w Hloop). cbn [snd]. autorewrite with proj.
  reflexivity.
Qed.

(** X7.  A plot request is routed by the device handle at the moment it is
    served.  Without a device the plan is simulated: the request always
    returns, no device operation is issued, and the events are those of
    [simulatePlot].  With a device the plan is plotted: no timer is set, the
    events and device calls are those of [doPlot], and so is the outcome.
    Either way the request is answered with status 200 before anything
    else happens to the plan. *)
Theorem plot_request_routing plan w :
  (ebb w = None ->
   fst (fst (postPlot (Resolved plan) w)) = Ok tt
   /\ devCalls (snd (postPlot (Resolved plan) w)) = []
   /\ bcasts (snd (postPlot (Resolved plan) w)) = bcasts (snd (simulatePlot plan w)))
  /\ (ebb w <> None ->
      fst (fst (postPlot (Resolved plan) w)) = fst (fst (doPlot plan w))
      /\ sleeps (snd (postPlot (Resolved plan) w)) = []
      /\ devCalls (snd (postPlot (Resolved plan) w)) = devCalls (snd (doPlot plan w))
      /\ bcasts (snd (postPlot (Resolved plan) w)) = bcasts (snd (doPlot plan w)))
  /\ exists rest,
       snd (postPlot (Resolved plan) w)
       = Console ReceivedPlan
           :: Console (match ebb w with
                       | Some _ => BeginningPlot
                       | None => SimulatingPlot
                       end)
           :: Respond 200 :: rest
       /\ bcasts rest = bcasts (snd (postPlot (Resolved plan) w))
       /\ devCalls rest = devCalls (snd (postPlot (Resolved plan) w)).
Proof.
  destruct (postPlot_projections plan w) as (Hb & Hd & Hs).
  rewrite Hb, Hd, Hs.
  split; [|split].
  - intros He. rewrite postPlot_run, plotOrSimulate_route, He. cbn [fst].
    split; [apply simulatePlot_report|].
    split; [apply devCalls_simulatePlot|reflexivity].
  - intros He. rewrite postPlot_run, plotOrSimulate_route. cbn [fst].
    destruct (ebb w) as [d|]; [|contradiction].
    split; [reflexivity|]. split; [apply sleeps_doPlot|].
    split; reflexivity.
  - rewrite <- Hb, <- Hd, postPlot_run. cbn [snd app].
    eexists. split; [reflexivity|]. split; reflexivity.
Qed.

(** At the desk there is no device; on the bench there is one. *)
Lemma plot_request_routing_witness :
  devCalls (snd (postPlot (Resolved planPenStroke) (desk calm))) = []
  /\ sleeps (snd (postPlot (Resolved planPenStroke) (bench calm))) = [].
Proof.
  split.
  - apply (proj1 (plot_request_routing planPenStroke (desk calm))).
    reflexivity.
  - apply (proj1 (proj2 (plot_request_routing planPenStroke (bench calm)))).
    discriminate.
Defined.

(** ** Inbound commands *)

(** X8.  No inbound frame, whatever it contains, changes the server state
    (device handle, clients, cancel flag), broadcasts anything, or has a
    device operation awaited.  The handler does at most one thing: it sends
    one [pong] to the sender, or, with a device connected, starts one
    [disableMotors] or one [setPenHeight] without waiting for it. *)
Theorem commands_leave_the_server_alone ws data w :
  snd (fst (onMessage ws data w)) = w
  /\ bcasts (snd (onMessage ws data w)) = []
  /\ devCalls (snd (onMessage ws data w)) = []
  /\ (snd (onMessage ws data w) = []
      \/ (exists ok, snd (onMessage ws data w) = [WsSend ws Pong ok])
      \/ (ebb w <> None
          /\ (snd (onMessage ws data w) = [DevNoWait DisableMotors]
              \/ exists height rate,
                   snd (onMessage ws data w)
                   = [DevNoWait (SetPenHeight height rate None)]))).
Proof.
  destruct data as [|[[|c p]|]]; try (repeat split; left; reflexivity).
  unfold onMessage, bind, ret. cbn [fst snd app].
  destruct (c =? "ping")%string.
  - unfold ws_send. destruct (sendFails (env w) ws Pong); cbn;
      repeat split; right; left; eexists; reflexivity.
  - destruct (c =? "limp")%string.
    + unfold get. destruct (ebb w) as [d|] eqn:He; cbn.
      * repeat split. right. right. split; [discriminate|]. left. reflexivity.
      * repeat split. left. reflexivity.
    + destruct (c =? "setPenHeight")%string.
      * unfold get. destruct (ebb w) as [d|] eqn:He; cbn.
        -- destruct p as [[height rate]|]; cbn.
           ++ repeat split. right. right. split; [discriminate|].
              right. exists height, rate. reflexivity.
           ++ repeat split. left. reflexivity.
        -- repeat split. left. reflexivity.
      * cbn. repeat split. left. reflexivity.
Qed.

(** X9.  The message handler throws in exactly four situations: the text is
    not JSON (SyntaxError); it is the JSON value [null] (TypeError); it is a
    [ping] and the reply cannot be sent; it is a [setPenHeight] without
    payload while a device is connected (TypeError).  Binary frames, unknown
    commands, and [limp] or [setPenHeight] without a device never throw. *)
Theorem commands_that_throw ws data w e :
  fst (fst (onMessage ws data w)) = Throw e
  <-> (data = Text None /\ e = SyntaxError)
      \/ (data = Text (Some JNull) /\ e = TypeError)
      \/ (exists p, data = Text (Some (JObj "ping" p))
                    /\ sendFails (env w) ws Pong = true /\ e = SendError ws)
      \/ (data = Text (Some (JObj "setPenHeight" None))
          /\ ebb w <> None /\ e = TypeError).
Proof.
  split.
  - destruct data as [|[[|c p]|]]; cbn.
    + discriminate.
    + intros H. inversion H. right. left. split; reflexivity.
    + unfold onMessage, bind, ret. cbn [fst snd app].
      destruct (String.eqb_spec c "ping") as [->|Hping].
      * unfold ws_send. destruct (sendFails (env w) ws Pong) eqn:Hs; cbn.
        -- intros H. inversion H. right. right. left. exists p.
           repeat split.
        -- discriminate.
      * destruct (String.eqb_spec c "limp") as [->|Hlimp].
        -- unfold get. destruct (ebb w); cbn; discriminate.
        -- destruct (String.eqb_spec c "setPenHeight") as [->|Hpen].
           ++ unfold get. destruct (ebb w) as [d|] eqn:He; cbn.
              ** destruct p as [[height rate]|]; cbn; [discriminate|].
                 intros H. inversion H. right. right. right.
                 repeat split. discriminate.
              ** discriminate.
           ++ cbn. discriminate.
    + intros H. inversion H. left. split; reflexivity.
  - intros [[-> ->]|[[-> ->]|[(p & -> & Hs & ->)|(-> & He & ->)]]].
    + reflexivity.
    + reflexivity.
    + unfold onMessage, bind, ret, ws_send. cbn. rewrite Hs. reflexivity.
    + unfold onMessage, bind, ret, get. cbn.
      destruct (ebb w); [reflexivity|contradiction].
Qed.

(** A [setPenHeight] without payload on the bench. *)
Lemma commands_that_throw_witness :
  fst (fst (onMessage 1 (Text (Some (JObj "setPenHeight" None))) (bench calm)))
  = Throw TypeError.
Proof.
  apply (proj2 (commands_that_throw 1
                  (Text (Some (JObj "setPenHeight" None))) (bench calm)
                  TypeError)).
  right. right. right. repeat split. discriminate.
Defined.

(** ** The list of clients *)

Lemma onClose_run ws w :
  onClose ws w
  = (Ok tt,
     set_clients (filter (fun w' => negb (Nat.eqb w' ws)) (clients w)) w, []).
Proof. reflexivity. Qed.

Lemma count_occ_filter_other ws ws' cs :
  ws' <> ws ->
  count_occ Nat.eq_dec (filter (fun w' => negb (Nat.eqb w' ws)) cs) ws'
  = count_occ Nat.eq_dec cs ws'.
Proof.
  intros Hne. induction cs as [|c cs IH]; [reflexivity|].
  cbn [filter]. destruct (Nat.eqb_spec c ws) as [->|Hc]; cbn [negb count_occ].
  - destruct (Nat.eq_dec ws ws') as [Heq|_]; [congruence|exact IH].
  - destruct (Nat.eq_dec c ws'); rewrite IH; reflexivity.
Qed.



Lemma filter_absent ws cs :
  ~ In ws cs -> filter (fun w' => negb (Nat.eqb w' ws)) cs = cs.
Proof.
  induction cs as [|c cs IH]; intros Hnew; [reflexivity|].
  cbn [filter]. destruct (Nat.eqb_spec c ws) as [->|Hc].
  - exfalso. apply Hnew. left. reflexivity.
  - cbn [negb]. f_equal. apply IH. intros H. apply Hnew. right. exact H.
Qed.

Lemma onConnection_run ws w :
  onConnection ws w
  = (if sendFails (env w) ws (DevMsg (currentPath w))
     then Throw (SendError ws) else Ok tt,
     set_clients (clients w ++ [ws]) w,
     [WsSend ws (DevMsg (currentPath w))
             (negb (sendFails (env w) ws (DevMsg (currentPath w))))]).
Proof.
  unfold onConnection, bind, modify, get, ws_send. cbn.
  change (currentPath (set_clients (clients w ++ [ws]) w)) with (currentPath w).
  destruct (sendFails (env w) ws (DevMsg (currentPath w))); reflexivity.
Qed.

(** X11.  A client that was not registered before connects and later
    closes.  If its greeting could be sent, the close gives back the list of
    clients as it was, in the same order.  If the greeting threw, the
    connection handler was left before it registered the close handler: the
    client stays registered after its close, and every later broadcast
    still tries to send to it. *)
Theorem close_unregisters_a_greeted_client ws w :
  ~ In ws (clients w) ->
  match onConnection ws w with
  | (greeted, w1, _) =>
      match closeOf ws greeted w1 with
      | (_, w2, _) =>
          clients w2
          = (if sendFails (env w) ws (DevMsg (currentPath w))
             then clients w ++ [ws] else clients w)
          /\ (sendFails (env w) ws (DevMsg (currentPath w)) = true ->
              forall msg,
                In (WsSend ws msg (negb (sendFails (env w) ws msg)))
                   (snd (broadcast msg w2)))
      end
  end.
Proof.
  intros Hnew. rewrite onConnection_run.
  destruct (sendFails (env w) ws (DevMsg (currentPath w))) eqn:Hs.
  - cbn [closeOf ret]. split; [reflexivity|].
    intros _ msg. rewrite broadcast_run'. cbn [snd].
    unfold bcastTrace. right. unfold deliveries.
    cbn [clients set_clients env]. apply in_flat_map.
    exists ws. split; [apply in_or_app; right; left; reflexivity|].
    destruct (sendFails (env w) ws msg); left; reflexivity.
  - cbn [closeOf]. rewrite onClose_run. split; [|discriminate].
    cbn [clients set_clients].
    rewrite filter_app. cbn [filter]. rewrite Nat.eqb_refl. cbn [negb].
    rewrite app_nil_r. apply filter_absent. exact Hnew.
Qed.

(** Client 3 joins the bench and leaves again; and the same when it cannot
    be reached. *)
Lemma close_unregisters_a_greeted_client_witness :
  clients (snd (fst (closeOf 3 (fst (fst (onConnection 3 (bench calm))))
                       (snd (fst (onConnection 3 (bench calm)))))))
  = [1; 2]
  /\ clients (snd (fst (closeOf 3 (fst (fst (onConnection 3 (bench deafThird))))
                          (snd (fst (onConnection 3 (bench deafThird)))))))
     = [1; 2; 3].
Proof.
  assert (Hnew : forall e, ~ In 3 (clients (bench e))).
  { intros e [H|[H|H]]; [discriminate H|discriminate H|exact H]. }
  pose proof (close_unregisters_a_greeted_client 3 (bench calm) (Hnew calm))
    as H1.
  pose proof (close_unregisters_a_greeted_client 3 (bench deafThird)
                (Hnew deafThird)) as H2.
  split; [exact (proj1 H1)|exact (proj1 H2)].
Defined.

(** ** Broadcasts while clients come and go *)

Lemma received_agree w w' ws events :
  env w' = env w ->
  count_occ Nat.eq_dec (clients w') ws = count_occ Nat.eq_dec (clients w) ws ->
  received w' ws events = received w ws events.
Proof.
  intros He Hc. unfold received, copies. rewrite He, Hc. reflexivity.
Qed.

Lemma received_unregistered w ws events :
  count_occ Nat.eq_dec (clients w) ws = 0 -> received w ws events = [].
Proof.
  intros Hc. induction events as [|msg events IH]; [reflexivity|].
  unfold received in *. cbn [flat_map]. rewrite IH.
  unfold copies. rewrite Hc. destruct (sendFails (env w) ws msg); reflexivity.
Qed.

Lemma onMessage_foreign ws' data w ws :
  ws' <> ws ->
  snd (fst (onMessage ws' data w)) = w
  /\ bcasts (snd (onMessage ws' data w)) = []
  /\ deliveredTo ws (snd (onMessage ws' data w)) = [].
Proof.
  intros Hne. apply Nat.eqb_neq in Hne.
  destruct data as [|[[|c p]|]]; try (repeat split; reflexivity).
  unfold onMessage, bind, ret. cbn [fst snd app].
  destruct (c =? "ping")%string.
  - unfold ws_send. destruct (sendFails (env w) ws' Pong); cbn;
      rewrite ?Hne; repeat split; reflexivity.
  - destruct (c =? "limp")%string.
    + unfold get. destruct (ebb w) as [d|]; cbn; repeat split; reflexivity.
    + destruct (c =? "setPenHeight")%string.
      * unfold get. destruct (ebb w) as [d|]; cbn.
        -- destruct p as [[height rate]|]; cbn; repeat split; reflexivity.
        -- repeat split; reflexivity.
      * cbn. repeat split; reflexivity.
Qed.

(** One turn of a handler that is not about [ws]. *)
Lemma serve_foreign ws ev w :
  concerns ws ev = false ->
  match serve ev w with
  | (_, w1, t1) =>
      env w1 = env w
      /\ count_occ Nat.eq_dec (clients w1) ws
         = count_occ Nat.eq_dec (clients w) ws
      /\ deliveredTo ws t1 = received w ws (bcasts t1)
  end.
Proof.
  destruct ev as [msg|ws'|ws'|ws' data| |d]; cbn [concerns serve]; intros Hf.
  - rewrite broadcast_run'.
    rewrite deliveredTo_bcastTrace, bcasts_bcastTrace.
    unfold received. cbn [flat_map]. rewrite app_nil_r.
    repeat split; reflexivity.
  - apply Nat.eqb_neq in Hf. rewrite onConnection_run.
    cbn [env clients set_clients].
    split; [reflexivity|]. split.
    + rewrite count_occ_app. cbn [count_occ].
      destruct (Nat.eq_dec ws' ws) as [Heq|_]; [contradiction|].
      apply Nat.add_0_r.
    + apply Nat.eqb_neq in Hf. cbn.
      destruct (negb _); rewrite ?Hf; reflexivity.
  - apply Nat.eqb_neq in Hf. rewrite onClose_run.
    cbn [env clients set_clients].
    split; [reflexivity|]. split; [|reflexivity].
    apply count_occ_filter_other. intros Heq. apply Hf. symmetry. exact Heq.
  - apply Nat.eqb_neq in Hf.
    destruct (onMessage_foreign data w Hf) as (Hw & Hb & Hd).
    destruct (onMessage ws' data w) as [[r w1] t1]. cbn [fst snd] in *.
    subst w1. rewrite Hb, Hd. repeat split; reflexivity.
  - cbn. repeat split; reflexivity.
  - cbn. repeat split; reflexivity.
Qed.

Lemma turns_foreign ws evs : forall w,
  foreign ws evs = true ->
  env (fst (turns evs w)) = env w
  /\ count_occ Nat.eq_dec (clients (fst (turns evs w))) ws
     = count_occ Nat.eq_dec (clients w) ws
  /\ deliveredTo ws (snd (turns evs w))
     = received w ws (bcasts (snd (turns evs w))).
Proof.
  induction evs as [|ev evs IH]; intros w Hf.
  - repeat split; reflexivity.
  - cbn [foreign forallb] in Hf. apply andb_prop in Hf. destruct Hf as [Hev Hf].
    apply negb_true_iff in Hev.
    pose proof (serve_foreign ws ev w Hev) as H1.
    cbn [turns]. destruct (serve ev w) as [[r w1] t1].
    destruct H1 as (He1 & Hc1 & Hd1).
    destruct (IH w1 Hf) as (He2 & Hc2 & Hd2).
    destruct (turns evs w1) as [w2 t2]. cbn [fst snd] in *.
    split; [congruence|]. split; [congruence|].
    rewrite deliveredTo_app, bcasts_app, received_app, Hd1, Hd2.
    rewrite (@received_agree w w1 ws (bcasts t2) He1 Hc1). reflexivity.
Qed.

Lemma turns_app evs1 evs2 : forall w,
  turns (evs1 ++ evs2) w
  = (fst (turns evs2 (fst (turns evs1 w))),
     snd (turns evs1 w) ++ snd (turns evs2 (fst (turns evs1 w)))).
Proof.
  induction evs1 as [|ev evs1 IH]; intros w.
  - cbn. destruct (turns evs2 w). reflexivity.
  - cbn [app turns]. destruct (serve ev w) as [[r w1] t1].
    rewrite IH. destruct (turns evs1 w1) as [w2 t2]. cbn [fst snd].
    rewrite app_assoc. reflexivity.
Qed.

(** X1.  Broadcasts, connections, closes, frames, cancel requests and
    changes of the device follow each other in any order.  As long as a
    client does not itself connect, close or send a frame, it is delivered
    the broadcast events in the order of their emission: each once per
    registration, except those for which its own send throws.  So a client
    registered once whose sends never throw receives exactly the events
    broadcast, whatever the other clients do; and once its close handler has
    run it receives nothing more: what it has is what was broadcast before
    its close. *)
Theorem broadcasts_reach_the_registered ws evs w :
  foreign ws evs = true ->
  deliveredTo ws (snd (turns evs w))
  = received w ws (bcasts (snd (turns evs w)))
  /\ (count_occ Nat.eq_dec (clients w) ws = 1 ->
      (forall msg, sendFails (env w) ws msg = false) ->
      deliveredTo ws (snd (turns evs w)) = bcasts (snd (turns evs w)))
  /\ (forall later,
        foreign ws later = true ->
        deliveredTo ws (snd (turns (evs ++ Leaves ws :: later) w))
        = received w ws (bcasts (snd (turns evs w)))).
Proof.
  intros Hf. destruct (turns_foreign ws evs w Hf) as (He & Hc & Hd).
  split; [exact Hd|]. split.
  - intros Hone Hok. rewrite Hd. apply received_once; assumption.
  - intros later Hl. rewrite turns_app. cbn [snd].
    rewrite deliveredTo_app, Hd.
    cbn [turns serve]. rewrite onClose_run.
    set (w1 := set_clients _ (fst (turns evs w))).
    destruct (turns_foreign ws later w1 Hl) as (_ & _ & Hd').
    destruct (turns later w1) as [w2 t2]. cbn [fst snd app] in *.
    rewrite Hd', (@received_unregistered w1 ws); [apply app_nil_r|].
    subst w1. cbn [clients set_clients]. apply count_occ_not_In.
    intros H. apply filter_In in H. destruct H as [_ H].
    rewrite Nat.eqb_refl in H. discriminate H.
Qed.

(** Client 2 at the bench during a plot of two motions, while client 3
    joins and client 1, which cannot be reached, leaves. *)
Lemma broadcasts_reach_the_registered_witness :
  deliveredTo 2
    (snd (turns [Says (Progress 0); Joins 3; Says (Progress 1); Leaves 1;
                 Says Finished] (bench deafFirst)))
  = [Progress 0; Progress 1; Finished].
Proof.
  apply (proj1 (proj2 (broadcasts_reach_the_registered 2
                         [Says (Progress 0); Joins 3; Says (Progress 1);
                          Leaves 1; Says Finished]
                         (bench deafFirst) eq_refl))).
  - reflexivity.
  - intros msg. reflexivity.
Defined.

(** ** Waiting for a device *)

(** X12.  [waitForEbb] polls the listing until it is not empty: after [n]
    empty listings it has slept [n] times for 5000 ms, done nothing else,
    and returns the first port of the next listing.  A listing that fails
    is not retried there: its error is thrown on, after the sleeps so
    far. *)
Theorem waitForEbb_polls n : forall w fuel rest,
  n < fuel ->
  (forall com others,
     listTape w = repeat (Resolved []) n ++ Resolved (com :: others) :: rest ->
     waitForEbb fuel w
     = (Ok com, set_listTape rest w, repeat (Sleep (inject_Z 5000)) n))
  /\ (forall e,
        listTape w = repeat (Resolved []) n ++ Rejected e :: rest ->
        waitForEbb fuel w
        = (Throw e, set_listTape rest w, repeat (Sleep (inject_Z 5000)) n)).
Proof.
  induction n as [|n IH]; intros w [|fuel] rest Hf; try lia.
  - split.
    + intros com others Ht. cbn [waitForEbb repeat app] in *.
      unfold bind, awaitList. rewrite Ht. reflexivity.
    + intros e Ht. cbn [waitForEbb repeat app] in *.
      unfold bind, awaitList. rewrite Ht. reflexivity.
  - split.
    + intros com others Ht. cbn [waitForEbb].
      unfold bind at 1, awaitList. rewrite Ht. cbn [repeat app].
      unfold bind, sleep, emit.
      destruct (IH (set_listTape
                      (repeat (Resolved []) n ++ Resolved (com :: others) :: rest) w)
                   fuel rest ltac:(lia)) as [Hok _].
      rewrite (Hok com others eq_refl). reflexivity.
    + intros e Ht. cbn [waitForEbb].
      unfold bind at 1, awaitList. rewrite Ht. cbn [repeat app].
      unfold bind, sleep, emit.
      destruct (IH (set_listTape
                      (repeat (Resolved []) n ++ Rejected e :: rest) w)
                   fuel rest ltac:(lia)) as [_ Hthrow].
      rewrite (Hthrow e eq_refl). reflexivity.
Qed.

(** Two empty listings, then two ports. *)
Lemma waitForEbb_polls_witness :
  waitForEbb 3
    (set_listTape [Resolved []; Resolved [];
                   Resolved ["/dev/ttyACM0"; "/dev/ttyACM1"]%string]
       (desk calm))
  = (Ok "/dev/ttyACM0"%string, desk calm,
     [Sleep (inject_Z 5000); Sleep (inject_Z 5000)]).
Proof.
  apply (proj1 (@waitForEbb_polls 2
                  (set_listTape [Resolved []; Resolved [];
                                 Resolved ["/dev/ttyACM0"; "/dev/ttyACM1"]%string]
                     (desk calm))
                  3 [] ltac:(lia))
           "/dev/ttyACM0"%string ["/dev/ttyACM1"%string]).
  reflexivity.
Defined.

(** ** A configured port *)

Lemma truthy_nonempty p : p <> EmptyString -> truthy (Some p) = Some p.
Proof. intros Hp. destruct p; [contradiction|reflexivity]. Qed.

Lemma ebbs_empty_path yield fuel :
  ebbs (Some EmptyString) yield fuel = ebbs None yield fuel.
Proof.
  induction fuel as [|fuel IH]; [reflexivity|].
  cbn [ebbs]. rewrite IH. reflexivity.
Qed.

(** X13.  The generator [ebbs(path)] given a port name (the server itself
    calls it without one) never lists the ports: it tries to open that
    port, and after each failed open it logs the error, sleeps 5000 ms and
    tries the same port again, without yielding anything.  When the open
    succeeds it yields the device at that port, once, in a state in which
    only the answers of [tryOpen] have been consumed; and when the consumer
    has handled it, the generator waits for the connection to close.  An
    empty port name counts as none: the generator then discovers the port
    like [ebbs()]. *)
Theorem configured_port_is_retried p es yield w1 t1 : forall w fuel,
  p <> EmptyString ->
  List.length es < fuel ->
  openTape w = map Rejected es ++ [Resolved tt] ->
  yield (Some (mkEBB p)) (set_openTape [] w) = (Ok tt, w1, t1) ->
  closes w1 = 0 ->
  ebbs (Some p) yield fuel w
  = (Pending, w1,
     flat_map (openFailureTrace p) es ++ Console (FoundEbb p) :: t1)
  /\ ebbs (Some EmptyString) yield fuel = ebbs None yield fuel.
Proof.
  induction es as [|e es IH]; intros w [|fuel] Hp Hf Ho Hy Hc;
    cbn [List.length] in Hf; try lia;
    (split; [|apply ebbs_empty_path]).
  - cbn [ebbs]. unfold bind at 1, tryCatch at 1, ebbsTry at 1.
    rewrite (truthy_nonempty Hp).
    unfold bind at 1, ret at 1.
    unfold bind at 1, console at 1, emit at 1.
    unfold bind at 1, tryOpen. cbn [map app] in Ho. rewrite Ho.
    unfold bind at 1. rewrite Hy.
    unfold bind at 1, awaitClosed. rewrite Hc.
    cbn [app flat_map]. rewrite ?app_nil_r. reflexivity.
  - cbn [ebbs]. unfold bind at 1, tryCatch at 1, ebbsTry at 1.
    rewrite (truthy_nonempty Hp).
    unfold bind at 1, ret at 1.
    unfold bind at 1, console at 1, emit at 1.
    unfold bind at 1, tryOpen. cbn [map app] in Ho. rewrite Ho.
    unfold ebbsCatch, bind at 1, console at 1, emit at 1.
    unfold bind at 1, console at 1, emit at 1. unfold sleep, emit.
    destruct (IH (set_openTape (map Rejected es ++ [Resolved tt]) w) fuel Hp)
      as [Hrun _]; [lia|reflexivity|exact Hy|exact Hc|].
    rewrite Hrun. cbn [flat_map openFailureTrace app].
    reflexivity.
Qed.

(** The given port is busy once, then opens; the consumer only looks at
    what it is handed. *)
Lemma configured_port_is_retried_witness :
  ebbs (Some "/dev/ttyUSB0"%string) (fun _ => ret tt) 2
    (set_openTape [Rejected (IoError "busy"); Resolved tt] (desk calm))
  = (Pending, desk calm,
     [Console (FoundEbb "/dev/ttyUSB0"); Console (ErrorConnecting "busy");
      Console Retrying; Sleep (inject_Z 5000);
      Console (FoundEbb "/dev/ttyUSB0")]).
Proof.
  apply (proj1 (@configured_port_is_retried "/dev/ttyUSB0"%string
                  [IoError "busy"] (fun _ => ret tt) (desk calm) []
                  (set_openTape [Rejected (IoError "busy"); Resolved tt]
                     (desk calm))
                  2 ltac:(discriminate) ltac:(cbn; lia) eq_refl eq_refl
                  eq_refl)).
Defined.

(** ** The clients are told what the server holds *)

Lemma waitForEbb_quiet fuel : forall w,
  match waitForEbb fuel w with
  | (_, w', t) =>
      bcasts t = [] /\ ebb w' = ebb w /\ clients w' = clients w
      /\ cancelRequested w' = cancelRequested w /\ env w' = env w
  end.
Proof.
  induction fuel as [|fuel IH]; intros w; [cbn; auto|].
  cbn [waitForEbb]. unfold bind at 1, awaitList.
  destruct (listTape w) as [|[l|e] tape]; [cbn; auto| |cbn; auto].
  destruct l as [|com l]; [|cbn; auto].
  unfold bind, sleep, emit.
  specialize (IH (set_listTape tape w)).
  destruct (waitForEbb fuel (set_listTape tape w)) as [[r w'] t].
  cbn [app bcasts flat_map]. exact IH.
Qed.

Lemma opening_history com w :
  match opening connectBody com w with
  | (r, w', t) =>
      clients w' = clients w /\ cancelRequested w' = cancelRequested w
      /\ env w' = env w
      /\ match r with
         | Ok _ => bcasts t = cycles [com] /\ ebb w' = None
         | Throw _ => bcasts t = [] /\ ebb w' = ebb w
         | Pending =>
             (bcasts t = [] /\ ebb w' = ebb w)
             \/ (bcasts t = [DevMsg (Some com)] /\ ebb w' = Some (mkEBB com))
         | OutOfFuel => False
         end
  end.
Proof.
  unfold opening.
  unfold bind at 1, console at 1, emit at 1.
  unfold bind at 1, tryOpen.
  destruct (openTape w) as [|[u|e] tape]; [cbn; auto 6| |cbn; auto 6].
  unfold bind at 1. rewrite connectBody_run.
  unfold bind at 1, awaitClosed. cbn [closes set_ebb set_openTape].
  destruct (closes w) as [|n].
  - cbn [app port_path]. rewrite app_nil_r.
    change (bcasts (Console (FoundEbb com) :: ?l)) with (bcasts l).
    rewrite bcasts_bcastTrace. cbn. auto 6.
  - unfold bind at 1. rewrite connectBody_run. unfold console, emit.
    cbn [app port_path].
    change (bcasts (Console (FoundEbb com) :: ?l)) with (bcasts l).
    rewrite !bcasts_app, !bcasts_bcastTrace. cbn. auto 6.
Qed.

Lemma ebbsTry_history path fuel w :
  match ebbsTry path connectBody fuel w with
  | (r, w', t) =>
      clients w' = clients w /\ cancelRequested w' = cancelRequested w
      /\ env w' = env w
      /\ match r with
         | Ok _ => exists com, bcasts t = cycles [com] /\ ebb w' = None
         | Pending =>
             (bcasts t = [] /\ ebb w' = ebb w)
             \/ (exists com,
                   bcasts t = [DevMsg (Some com)]
                   /\ ebb w' = Some (mkEBB com))
         | _ => bcasts t = [] /\ ebb w' = ebb w
         end
  end.
Proof.
  change (ebbsTry path connectBody fuel)
    with (bind (match truthy path with
                | Some p => ret p
                | None => waitForEbb fuel
                end) (opening connectBody)).
  assert (Hchoice :
    match (match truthy path with
           | Some p => ret p
           | None => waitForEbb fuel
           end) w with
    | (_, w', t) =>
        bcasts t = [] /\ ebb w' = ebb w /\ clients w' = clients w
        /\ cancelRequested w' = cancelRequested w /\ env w' = env w
    end).
  { destruct (truthy path) as [p|]; [cbn; auto|apply waitForEbb_quiet]. }
  unfold bind.
  destruct ((match truthy path with
             | Some p => ret p
             | None => waitForEbb fuel
             end) w) as [[[com|e| |] w1] t1];
    destruct Hchoice as (Hb & He & Hc & Hf & Hv); try (cbn; auto 6; fail).
  pose proof (opening_history com w1) as H.
  destruct (opening connectBody com w1) as [[r w'] t].
  destruct H as (Hc' & Hf' & Hv' & H).
  rewrite bcasts_app, Hb, Hc', Hf', Hv', <- He. cbn [app].
  refine (conj Hc (conj Hf (conj Hv _))).
  destruct r as [u|e| |].
  - exists com. exact H.
  - exact H.
  - destruct H as [H|H]; [left; exact H|right; exists com; exact H].
  - destruct H.
Qed.

Lemma DevHistory_after_cycle d0 com d m :
  DevHistory None d m -> DevHistory d0 d (cycles [com] ++ m).
Proof.
  intros H. inversion H as [Hd|com' coms|coms com']; subst.
  - exact (AllLost d0 com []).
  - exact (AllLost d0 com (com' :: coms)).
  - exact (Connected d0 (com :: coms) com').
Qed.

Lemma DevHistory_last d0 d m :
  DevHistory d0 d m ->
  m = [] \/ exists before,
              m = before ++ [DevMsg (match d with
                                     | Some d' => Some (port_path d')
                                     | None => None
                                     end)].
Proof.
  intros [|com coms|coms com].
  - left. reflexivity.
  - right. revert com. induction coms as [|c coms IH]; intros com.
    + exists [DevMsg (Some com)]. reflexivity.
    + destruct (IH c) as (before & Hb).
      exists (DevMsg (Some com) :: DevMsg None :: before).
      change (cycles (com :: c :: coms))
        with (DevMsg (Some com) :: DevMsg None :: cycles (c :: coms)).
      rewrite Hb. reflexivity.
  - right. exists (cycles coms). reflexivity.
Qed.

(** X14.  However the serial layer answers and however long the connection
    loop has run, configured port or not: the loop has not returned; it
    has touched neither the clients nor the cancel flag; and its [dev]
    broadcasts so far are complete connections (a path, then null), followed
    at most by the path of the device the server holds now.  So the last
    [dev] event the clients were sent always names the device in [ebb], or
    null when there is none. *)
Theorem dev_broadcasts_track_the_device path fuel : forall w,
  match ebbs path connectBody fuel w with
  | (r, w', t) =>
      (forall u, r <> Ok u)
      /\ clients w' = clients w
      /\ cancelRequested w' = cancelRequested w
      /\ env w' = env w
      /\ DevHistory (ebb w) (ebb w') (bcasts t)
      /\ (bcasts t = []
          \/ exists before, bcasts t = before ++ [DevMsg (currentPath w')])
  end.
Proof.
  assert (Hmain : forall w,
    match ebbs path connectBody fuel w with
    | (r, w', t) =>
        (forall u, r <> Ok u)
        /\ clients w' = clients w
        /\ cancelRequested w' = cancelRequested w
        /\ env w' = env w
        /\ DevHistory (ebb w) (ebb w') (bcasts t)
    end).
  { induction fuel as [|fuel IH]; intros w.
    - cbn. refine (conj _ (conj eq_refl (conj eq_refl (conj eq_refl _)))).
      + discriminate.
      + constructor.
    - cbn [ebbs]. unfold bind at 1, tryCatch at 1.
      pose proof (ebbsTry_history path (S fuel) w) as H.
      destruct (ebbsTry path connectBody (S fuel) w) as [[[u|e| |] w1] t1];
        destruct H as (Hc & Hf & Hv & H).
      + destruct H as (com & Hb & He).
        specialize (IH w1).
        destruct (ebbs path connectBody fuel w1) as [[r w2] t2].
        destruct IH as (Hr & Hc2 & Hf2 & Hv2 & Hh).
        rewrite bcasts_app, Hb, Hc2, Hf2, Hv2. rewrite He in Hh.
        refine (conj Hr (conj Hc (conj Hf (conj Hv _)))).
        apply DevHistory_after_cycle. exact Hh.
      + destruct H as (Hb & He).
        unfold ebbsCatch, bind at 1, console at 1, emit at 1.
        unfold bind at 1, console at 1, emit at 1. unfold sleep, emit.
        specialize (IH w1).
        destruct (ebbs path connectBody fuel w1) as [[r w2] t2].
        destruct IH as (Hr & Hc2 & Hf2 & Hv2 & Hh).
        rewrite !bcasts_app, Hb, Hc2, Hf2, Hv2. rewrite He in Hh.
        cbn [app bcasts flat_map].
        refine (conj Hr (conj Hc (conj Hf (conj Hv Hh)))).
      + refine (conj _ (conj Hc (conj Hf (conj Hv _)))); [discriminate|].
        destruct H as [(Hb & He)|(com & Hb & He)]; rewrite Hb, He.
        * constructor.
        * exact (Connected (ebb w) [] com).
      + destruct H as (Hb & He).
        refine (conj _ (conj Hc (conj Hf (conj Hv _)))); [discriminate|].
        rewrite Hb, He. constructor. }
  intros w. specialize (Hmain w).
  destruct (ebbs path connectBody fuel w) as [[r w'] t].
  destruct Hmain as (Hr & Hc & Hf & Hv & Hh).
  refine (conj Hr (conj Hc (conj Hf (conj Hv (conj Hh _))))).
  unfold currentPath. exact (DevHistory_last Hh).
Qed.

(** ** Connecting once *)

(** X15.  [connectEBB(path)] asks for the list of ports only when no
    (non-empty) path is given, and consumes nothing else; it never sleeps,
    logs or broadcasts, and leaves the server state alone.  With a path it
    returns a device on that path at once.  Without one it returns [null]
    exactly when the listing answers with no port, a device on the first
    listed port when there is one, and it throws what the listing throws.
    Whenever it returns a device for a port it discovered, [waitForEbb]
    in the same state picks the same port, consuming the same answer. *)
Theorem connectEBB_once path w :
  match connectEBB path w with
  | (r, w', t) =>
      t = []
      /\ ebb w' = ebb w /\ clients w' = clients w
      /\ cancelRequested w' = cancelRequested w
      /\ openTape w' = openTape w /\ closes w' = closes w
      /\ (forall p, truthy path = Some p ->
            r = Ok (Some (mkEBB p)) /\ w' = w)
      /\ (truthy path = None ->
            match listTape w with
            | [] => r = Pending /\ w' = w
            | Resolved [] :: rest => r = Ok None /\ listTape w' = rest
            | Resolved (com :: _) :: rest =>
                r = Ok (Some (mkEBB com)) /\ listTape w' = rest
            | Rejected e :: rest => r = Throw e /\ listTape w' = rest
            end)
      /\ (r = Ok None <->
          truthy path = None /\ exists rest, listTape w = Resolved [] :: rest)
      /\ (forall d fuel,
            truthy path = None -> r = Ok (Some d) ->
            waitForEbb (S fuel) w = (Ok (port_path d), w', []))
  end.
Proof.
  unfold connectEBB.
  destruct (truthy path) as [p|] eqn:Hp.
  - cbn. repeat (split; [reflexivity|]).
    split; [intros p' [= <-]; auto|].
    split; [discriminate|].
    split; [split; [discriminate|intros [[=] _]]|].
    discriminate.
  - unfold bind, awaitList.
    destruct (listTape w) as [|[[|com l]|e] rest] eqn:Ht; cbn;
      rewrite ?Ht;
      repeat (split; [reflexivity|]);
      (split; [discriminate|]);
      (split; [auto|]).
    + split; [split; [discriminate|intros [_ (rest' & [=])]]|discriminate].
    + split; [|discriminate].
      split; [intros _; split; [reflexivity|exists rest; reflexivity]|reflexivity].
    + split; [split; [discriminate|intros [_ (rest' & [=])]]|].
      intros d fuel _ [= <-]. unfold bind, awaitList. rewrite Ht. reflexivity.
    + split; [split; [discriminate|intros [_ (rest' & [=])]]|discriminate].
Qed.
